(** * Element.Dimensions: size, scroll and position of DOM elements

    A shallow embedding of [Source/Element/Element.Dimensions.js]
    (MooTools): the methods [scrollTo], [getSize], [getScroll],
    [getPosition], [getTop], [getLeft] and [getCoordinates] that
    [Element.implement] adds to every element, and the properties the
    specification states about them.

    Conventions of the embedding.
    - The layout attributes the host exposes on an element ([offsetLeft],
      [scrollTop], ...) are pixel counts, numbers that hold an integer.
      [Number n] is the number that the literal [n] denotes in JavaScript:
      the double nearest to [n], which is [n] itself up to 2^53. The
      operators [+] and [-] round their exact result to the nearest
      double, ties to even, as IEEE 754 addition does; fractions,
      infinities and overflow past the largest double are not modelled.
      An attribute the host does not define reads [Undefined]; [NaN] is
      what [+] gives when one side is not a number.
    - Elements live in a store indexed by references; a method reads and
      writes the store through a small state monad, so that "reads only"
      is a theorem and not a convention.
    - The [do ... while (el)] loop of [getPosition] follows [offsetParent]
      references through the store; it is run with a bound on the number
      of iterations, and the outcome [OutOfFuel] stands for a walk that
      has not left the loop within the bound. *)

From Stdlib Require Import ZArith List Lia.
From stdpp Require Import base functions list.

Local Open Scope Z_scope.

(** ** Integers as doubles *)

(** Up to [limit] = 2^53 every integer is a double, and sums below it are
    exact. *)
Definition limit : Z := 2 ^ 53.

(** The double nearest to the integer [a >= 0]: [a] keeps its 53 leading
    bits; the [s] bits below them are rounded away, to the nearest
    neighbour and, half way between two, to the one whose last bit is 0. *)
Definition round53 (a : Z) : Z :=
  let s := Z.log2 a - 52 in
  if s <=? 0 then a
  else
    let q := a / 2 ^ s in
    let r := a mod 2 ^ s in
    let half := 2 ^ (s - 1) in
    if (half <? r) || ((r =? half) && Z.odd q)
    then (q + 1) * 2 ^ s
    else q * 2 ^ s.

(** The double nearest to the integer [n]. *)
Definition fl (n : Z) : Z :=
  if n <? 0 then - round53 (- n) else round53 n.

(** ** JavaScript values read from, and written to, layout attributes *)

Inductive value : Type :=
  | Undefined
  | NaN
  | Number (n : Z).

#[global] Instance value_eq_dec : EqDecision value.
Proof. solve_decision. Defined.

(** [ToBoolean]: [undefined], [NaN] and [0] are falsy. *)
Definition truthy (v : value) : bool :=
  match v with
  | Undefined => false
  | NaN => false
  | Number n => negb (n =? 0)
  end.

(** The integer a value stands for where a number is expected and [0]
    replaces what is not one: the double that [Number n] denotes. *)
Definition pixels (v : value) : Z :=
  match v with
  | Number n => fl n
  | _ => 0
  end.

(** [a || b] *)
Definition js_or (a b : value) : value := if truthy a then a else b.

(** [a + b] on numbers and [undefined] ([undefined] converts to [NaN]):
    the sum of two doubles is the double nearest to their exact sum. *)
Definition js_add (a b : value) : value :=
  match a, b with
  | Number m, Number n => Number (fl (fl m + fl n))
  | _, _ => NaN
  end.

(** [a - b], rounded in the same way. *)
Definition js_sub (a b : value) : value :=
  match a, b with
  | Number m, Number n => Number (fl (fl m - fl n))
  | _, _ => NaN
  end.

(** [a == b]: numbers are compared as doubles; [NaN] equals nothing, not
    even itself. *)
Definition js_eq (a b : value) : bool :=
  match a, b with
  | Number m, Number n => fl m =? fl n
  | Undefined, Undefined => true
  | _, _ => false
  end.

(** ** Elements and the layout store *)

Definition ref : Type := nat.

Record Element : Type := mkElement {
  offsetLeft : value;
  offsetTop : value;
  offsetParent : option ref;
  offsetWidth : value;
  offsetHeight : value;
  clientWidth : value;
  clientHeight : value;
  scrollWidth : value;
  scrollHeight : value;
  scrollLeft : value;
  scrollTop : value
}.

(** [el.scrollLeft = v] and [el.scrollTop = v] on one element. *)
Definition set_scrollLeft (v : value) (e : Element) : Element :=
  mkElement (offsetLeft e) (offsetTop e) (offsetParent e)
            (offsetWidth e) (offsetHeight e) (clientWidth e) (clientHeight e)
            (scrollWidth e) (scrollHeight e) v (scrollTop e).

Definition set_scrollTop (v : value) (e : Element) : Element :=
  mkElement (offsetLeft e) (offsetTop e) (offsetParent e)
            (offsetWidth e) (offsetHeight e) (clientWidth e) (clientHeight e)
            (scrollWidth e) (scrollHeight e) (scrollLeft e) v.

(** The live layout tree: every reference denotes an object. *)
Abbreviation layout := (ref -> Element).

(** ** Objects the methods return *)

(** [{'x': ..., 'y': ...}] *)
Module Point.
Record t : Type := mk { x : value; y : value }.
End Point.

(** [{'client': ..., 'offset': ..., 'scroll': ...}] *)
Module Size.
Record t : Type := mk { client : Point.t; offset : Point.t; scroll : Point.t }.
End Size.

(** The object [obj] of [getCoordinates]. *)
Module Coordinates.
Record t : Type := mk {
  top : value;
  left : value;
  width : value;
  height : value;
  right : value;
  bottom : value
}.

(** [obj.right = v] *)
Definition set_right (v : value) (o : t) : t :=
  mk (top o) (left o) (width o) (height o) v (bottom o).

(** [obj.bottom = v] *)
Definition set_bottom (v : value) (o : t) : t :=
  mk (top o) (left o) (width o) (height o) (right o) v.
End Coordinates.

(** ** The method monad: state, exceptions and bounded loops *)

(** The only kind of error the specification names. *)
Inductive error : Type :=
  | InvalidArgument.

Inductive outcome (A : Type) : Type :=
  | Return (a : A)
  | Raise (e : error)
  | OutOfFuel.
Arguments Return {A} a.
Arguments Raise {A} e.
Arguments OutOfFuel {A}.

Definition M (A : Type) : Type := layout -> outcome A * layout.

Definition ret {A} (a : A) : M A := fun h => (Return a, h).

Definition bind {A B} (m : M A) (k : A -> M B) : M B :=
  fun h =>
    match m h with
    | (Return a, h') => k a h'
    | (Raise e, h') => (Raise e, h')
    | (OutOfFuel, h') => (OutOfFuel, h')
    end.

Definition out_of_fuel {A} : M A := fun h => (OutOfFuel, h).

(** [el.attr] *)
Definition get {B} (attr : Element -> B) (el : ref) : M B :=
  fun h => (Return (attr (h el)), h).

(** [el.attr = v], with [upd] the update of that attribute. *)
Definition put (upd : Element -> Element) (el : ref) : M unit :=
  fun h => (Return tt, <[el := upd (h el)]> h).

Declare Scope js_scope.
Delimit Scope js_scope with js.
Notation "x <- m ;; k" := (bind m (fun x => k))
  (at level 62, m at next level, right associativity) : js_scope.
Notation "m ;;; k" := (bind m (fun _ => k))
  (at level 62, right associativity) : js_scope.
Local Open Scope js_scope.

(** ** Helpers of MooTools Core used by the file *)

(** The [overflown] argument of [getPosition]: left out, one element, or
    an array of elements. *)
Inductive argument : Type :=
  | Absent
  | Single (c : ref)
  | Array (cs : list ref).

(** Modelled from the spec: [$splat] is defined in MooTools Core, which is
    not under src/. The specification gives its effect on the container
    argument: a sequence is taken as it is, a single reference passed
    rather than a sequence is treated as a one-element sequence, and an
    absent argument defaults to the empty sequence. *)
Definition splat (a : argument) : list ref :=
  match a with
  | Absent => []
  | Single c => [c]
  | Array cs => cs
  end.

(** Modelled from the spec: [Array.each] is defined in MooTools Core, which
    is not under src/. It calls the function on each item of the array in
    the given order. The function of [getPosition] is a closure that
    updates the variables [left] and [top] of the enclosing call; [S] is
    the type of those captured variables. *)
Fixpoint each {S} (fn : ref -> S -> M S) (items : list ref) (s : S) : M S :=
  match items with
  | [] => ret s
  | item :: items' => s' <- fn item s ;; each fn items' s'
  end.

(** ** The methods of [Element.implement] *)

Definition scrollTo (this : ref) (x y : value) : M unit :=
  put (set_scrollLeft x) this ;;;
  put (set_scrollTop y) this.

Definition getSize (this : ref) : M Size.t :=
  cw <- get clientWidth this ;; ch <- get clientHeight this ;;
  ow <- get offsetWidth this ;; oh <- get offsetHeight this ;;
  sw <- get scrollWidth this ;; sh <- get scrollHeight this ;;
  ret (Size.mk (Point.mk cw ch) (Point.mk ow oh) (Point.mk sw sh)).

Definition getScroll (this : ref) : M Point.t :=
  sl <- get scrollLeft this ;;
  st <- get scrollTop this ;;
  ret (Point.mk sl st).

(** The loop [do { ... } while (el)] of [getPosition]: the body runs before
    the test, so the first element is read whatever it is. The pair holds
    the local variables [left] and [top]. *)
Fixpoint offsetWalk (fuel : nat) (el : ref) (acc : value * value)
  : M (value * value) :=
  match fuel with
  | O => out_of_fuel
  | S fuel' =>
      ol <- get offsetLeft el ;;
      ot <- get offsetTop el ;;
      let acc := (js_add acc.1 (js_or ol (Number 0)),
                  js_add acc.2 (js_or ot (Number 0))) in
      parent <- get offsetParent el ;;
      match parent with
      | Some el' => offsetWalk fuel' el' acc
      | None => ret acc
      end
  end.

(** The function passed to [overflown.each]; it updates [left] and [top]. *)
Definition subtractScroll (element : ref) (acc : value * value)
  : M (value * value) :=
  sl <- get scrollLeft element ;;
  st <- get scrollTop element ;;
  ret (js_sub acc.1 (js_or sl (Number 0)),
       js_sub acc.2 (js_or st (Number 0))).

Definition getPosition (fuel : nat) (this : ref) (overflown : argument)
  : M Point.t :=
  let overflown := splat overflown in
  acc <- offsetWalk fuel this (Number 0, Number 0) ;;
  acc <- each subtractScroll overflown acc ;;
  ret (Point.mk acc.1 acc.2).

Definition getTop (fuel : nat) (this : ref) (overflown : argument) : M value :=
  position <- getPosition fuel this overflown ;;
  ret (Point.y position).

Definition getLeft (fuel : nat) (this : ref) (overflown : argument) : M value :=
  position <- getPosition fuel this overflown ;;
  ret (Point.x position).

Definition getCoordinates (fuel : nat) (this : ref) (overflown : argument)
  : M Coordinates.t :=
  position <- getPosition fuel this overflown ;;
  w <- get offsetWidth this ;;
  ht <- get offsetHeight this ;;
  let obj := Coordinates.mk (Point.y position) (Point.x position) w ht
                            Undefined Undefined in
  let obj := Coordinates.set_right
               (js_add (Coordinates.left obj) (Coordinates.width obj)) obj in
  let obj := Coordinates.set_bottom
               (js_add (Coordinates.top obj) (Coordinates.height obj)) obj in
  ret obj.

(** ** Well-formed layout trees and the sums of the specification *)

(** [offsetChain h el l]: following [offsetParent] from [el] in the store
    [h] visits exactly the elements of [l], [el] first, and then finds no
    parent: the chain is finite. *)
Inductive offsetChain (h : layout) : ref -> list ref -> Prop :=
  | chain_end el :
      offsetParent (h el) = None -> offsetChain h el [el]
  | chain_step el parent l :
      offsetParent (h el) = Some parent ->
      offsetChain h parent l ->
      offsetChain h el (el :: l).

(** The sum of one attribute, absent treated as 0, over a list of
    elements. *)
Definition total (attr : Element -> value) (h : layout) (l : list ref) : Z :=
  foldr (fun el s => pixels (attr (h el)) + s) 0 l.

(** The sum of the absolute values of one attribute over a list of
    elements: where it stays within [limit], no sum or difference of these
    attributes, taken in any order, is rounded. *)
Definition magnitude (attr : Element -> value) (h : layout) (l : list ref)
  : Z :=
  foldr (fun el s => Z.abs (pixels (attr (h el))) + s) 0 l.

(** What one turn of the loop of [getPosition] does to [left] and [top]. *)
Definition addOffsets (h : layout) (acc : value * value) (el : ref)
  : value * value :=
  (js_add acc.1 (js_or (offsetLeft (h el)) (Number 0)),
   js_add acc.2 (js_or (offsetTop (h el)) (Number 0))).

(** [left] and [top] after the loop has gone through the elements of [l]. *)
Definition walked (h : layout) (l : list ref) (acc : value * value)
  : value * value :=
  fold_left (addOffsets h) l acc.

(** What the function passed to [each] does to [left] and [top]. *)
Definition subScroll (h : layout) (acc : value * value) (c : ref)
  : value * value :=
  (js_sub acc.1 (js_or (scrollLeft (h c)) (Number 0)),
   js_sub acc.2 (js_or (scrollTop (h c)) (Number 0))).

(** [left] and [top] after [each] has gone through the containers [cs]. *)
Definition subtracted (h : layout) (cs : list ref) (acc : value * value)
  : value * value :=
  fold_left (subScroll h) cs acc.

(** A value that is a double: a number that [Number] has not to round. *)
Definition is_double (v : value) : Prop :=
  exists n, v = Number n /\ fl n = n.

(** A node that is attached to no layout tree: it has no layout parent and
    no offset of its own. An object that is no element at all (such as the
    global object, which non-strict code receives as [this] when the
    receiver is absent) exposes none of these attributes and is covered. *)
Definition detached (e : Element) : Prop :=
  offsetParent e = None /\
  truthy (offsetLeft e) = false /\ truthy (offsetTop e) = false.

(** ** Layouts used in the examples *)

(** An object without any layout attribute. *)
Definition blank : Element :=
  mkElement Undefined Undefined None Undefined Undefined Undefined Undefined
            Undefined Undefined Undefined Undefined.

(** An element at offset [(l, t)] in its layout parent [p]. *)
Definition placed (l t : Z) (p : option ref) : Element :=
  mkElement (Number l) (Number t) p (Number 0) (Number 0) (Number 0)
            (Number 0) (Number 0) (Number 0) (Number 0) (Number 0).

(** Element 0 at (10,5) inside element 1 at (20,0) inside element 2 at
    (0,15), which has no layout parent. *)
Definition nested : layout :=
  fun r =>
    match r with
    | 0%nat => placed 10 5 (Some 1%nat)
    | 1%nat => placed 20 0 (Some 2%nat)
    | 2%nat => placed 0 15 None
    | _ => blank
    end.

(** The same tree with a scrolling container, element 7, scrolled by (5,5),
    and an element 8 of size 200 by 300. *)
Definition scrolled : layout :=
  fun r =>
    match r with
    | 7%nat => set_scrollTop (Number 5) (set_scrollLeft (Number 5) blank)
    | 8%nat => mkElement (Number 100) (Number 50) None (Number 200)
                         (Number 300) Undefined Undefined Undefined Undefined
                         Undefined Undefined
    | _ => nested r
    end.

(** No element at all: every reference is a [blank] object. *)
Definition nowhere : layout := fun _ => blank.

(** A store that is not a tree: element 0 is its own layout parent. *)
Definition knot : layout := fun _ => placed 1 1 (Some 0%nat).

(** An endless chain without a cycle: the parent of [r] is [r + 1]. *)
Definition ladder : layout := fun r => placed 1 1 (Some (S r)).

(** An element scrolled by [(l, t)] and without any other attribute. *)
Definition scrolledBy (l t : Z) : Element :=
  set_scrollTop (Number t) (set_scrollLeft (Number l) blank).

(** Offsets and scroll offsets at the edge of the integers that doubles
    hold exactly: element 0 at (1,0) inside element 1 at (2^53,0); element
    2 at (2^54,0); containers 3, 4 and 5 scrolled by (2^53,0), (1,0) and
    (5,5). *)
Definition faraway : layout :=
  fun r =>
    match r with
    | 0%nat => placed 1 0 (Some 1%nat)
    | 1%nat => placed (2 ^ 53) 0 None
    | 2%nat => placed (2 ^ 54) 0 None
    | 3%nat => scrolledBy (2 ^ 53) 0
    | 4%nat => scrolledBy 1 0
    | 5%nat => scrolledBy 5 5
    | _ => blank
    end.

(** ** Rounding *)

Lemma round53_small (a : Z) : 0 <= a <= limit -> round53 a = a.
Proof.
  unfold limit. intros [Hlo Hhi].
  destruct (Z.eq_dec a (2 ^ 53)) as [->|Hne]; [reflexivity|].
  unfold round53.
  assert (Hs : Z.log2 a - 52 <= 0).
  { destruct (Z.eq_dec a 0) as [->|Hpos]; [vm_compute; discriminate|].
    assert (Z.log2 a < 53) by (apply Z.log2_lt_pow2; lia). lia. }
  apply Z.leb_le in Hs. rewrite Hs. reflexivity.
Qed.

(** A number with at most 53 significant bits is a double. *)
Lemma round53_fixed (q s : Z) :
  0 <= s -> 2 ^ 52 <= q < 2 ^ 53 -> round53 (q * 2 ^ s) = q * 2 ^ s.
Proof.
  intros Hs Hq.
  destruct (Z.eq_dec s 0) as [->|Hs0].
  { rewrite Z.pow_0_r, Z.mul_1_r. apply round53_small. unfold limit. lia. }
  assert (Hpow : 0 < 2 ^ s) by (apply Z.pow_pos_nonneg; lia).
  assert (Hlog : Z.log2 (q * 2 ^ s) = 52 + s).
  { apply Z.log2_unique; [lia|].
    replace (Z.succ (52 + s)) with (53 + s) by lia.
    rewrite !Z.pow_add_r by lia. split.
    - apply Z.mul_le_mono_nonneg_r; lia.
    - apply Z.mul_lt_mono_pos_r; lia. }
  unfold round53. rewrite Hlog.
  replace (52 + s - 52) with s by lia.
  destruct (Z.leb_spec s 0) as [Hle|_]; [lia|].
  rewrite Z.div_mul, Z.mod_mul by lia.
  assert (Hhalf : 0 < 2 ^ (s - 1)) by (apply Z.pow_pos_nonneg; lia).
  destruct (Z.ltb_spec (2 ^ (s - 1)) 0) as [Hlt|_]; [lia|].
  destruct (Z.eqb_spec 0 (2 ^ (s - 1))) as [Heq|_]; [lia|].
  reflexivity.
Qed.

(** Rounding leaves the number as it is or gives one with 53 significant
    bits. *)
Lemma round53_shape (a : Z) :
  0 <= a ->
  round53 a = a \/
  exists q s, 0 <= s /\ 2 ^ 52 <= q < 2 ^ 53 /\ round53 a = q * 2 ^ s.
Proof.
  intros Ha. unfold round53.
  destruct (Z.leb_spec (Z.log2 a - 52) 0) as [Hle|Hgt]; [left; reflexivity|].
  right. set (s := Z.log2 a - 52) in *.
  assert (Hapos : 0 < a).
  { destruct (Z.eq_dec a 0) as [->|]; [vm_compute in Hgt; discriminate|lia]. }
  assert (Hpow : 0 < 2 ^ s) by (apply Z.pow_pos_nonneg; lia).
  destruct (Z.log2_spec a Hapos) as [Hlow Hhigh].
  replace (Z.log2 a) with (52 + s) in Hlow by (unfold s; lia).
  replace (Z.succ (Z.log2 a)) with (53 + s) in Hhigh by (unfold s; lia).
  rewrite Z.pow_add_r in Hlow, Hhigh by lia.
  assert (Hq : 2 ^ 52 <= a / 2 ^ s < 2 ^ 53).
  { split.
    - apply Z.div_le_lower_bound; [assumption|lia].
    - apply Z.div_lt_upper_bound; [assumption|lia]. }
  destruct ((2 ^ (s - 1) <? a mod 2 ^ s)
            || ((a mod 2 ^ s =? 2 ^ (s - 1)) && Z.odd (a / 2 ^ s))).
  - destruct (Z.eq_dec (a / 2 ^ s + 1) (2 ^ 53)) as [Htop|Hbelow].
    + exists (2 ^ 52), (s + 1). split; [lia|]. split; [lia|].
      rewrite Htop, (Z.pow_add_r 2 s 1) by lia. lia.
    + exists (a / 2 ^ s + 1), s. split; [lia|]. split; [lia|reflexivity].
  - exists (a / 2 ^ s), s. split; [lia|]. split; [lia|reflexivity].
Qed.

Lemma round53_idempotent (a : Z) : 0 <= a -> round53 (round53 a) = round53 a.
Proof.
  intros Ha. destruct (round53_shape a Ha) as [Hsame|(q & s & Hs & Hq & ->)].
  - rewrite Hsame. exact Hsame.
  - apply round53_fixed; assumption.
Qed.

Lemma round53_pos (a : Z) : 0 < a -> 0 < round53 a.
Proof.
  intros Ha.
  destruct (round53_shape a) as [->|(q & s & Hs & Hq & ->)]; [lia|assumption|].
  apply Z.mul_pos_pos; [lia|apply Z.pow_pos_nonneg; lia].
Qed.

Lemma fl_0 : fl 0 = 0.
Proof. reflexivity. Qed.

(** Up to 2^53 in absolute value an integer is a double. *)
Lemma fl_exact (n : Z) : Z.abs n <= limit -> fl n = n.
Proof.
  intros Hn. unfold fl. destruct (Z.ltb_spec n 0) as [Hneg|Hpos].
  - rewrite round53_small by lia. lia.
  - apply round53_small. lia.
Qed.

(** Rounding a double changes nothing. *)
Lemma fl_idempotent (n : Z) : fl (fl n) = fl n.
Proof.
  unfold fl at 2 3. destruct (Z.ltb_spec n 0) as [Hneg|Hpos].
  - assert (Hr : 0 < round53 (- n)) by (apply round53_pos; lia).
    unfold fl. destruct (Z.ltb_spec (- round53 (- n)) 0) as [_|Hge]; [|lia].
    rewrite Z.opp_involutive, round53_idempotent by lia. reflexivity.
  - destruct (Z.eq_dec n 0) as [->|Hne]; [reflexivity|].
    assert (Hr : 0 < round53 n) by (apply round53_pos; lia).
    unfold fl. destruct (Z.ltb_spec (round53 n) 0) as [Hlt|_]; [lia|].
    apply round53_idempotent. assumption.
Qed.

(** Only the integer 0 rounds to the double 0, so that [truthy] may test
    the integer itself. *)
Lemma fl_eq_0 (n : Z) : fl n = 0 <-> n = 0.
Proof.
  split; [|intros ->; reflexivity].
  unfold fl. destruct (Z.ltb_spec n 0) as [Hneg|Hpos]; intros Hfl.
  - assert (0 < round53 (- n)) by (apply round53_pos; lia). lia.
  - destruct (Z.eq_dec n 0) as [->|Hne]; [reflexivity|].
    assert (0 < round53 n) by (apply round53_pos; lia). lia.
Qed.

(** ** Values *)

Lemma js_add_or (a : Z) (v : value) :
  js_add (Number a) (js_or v (Number 0)) = Number (fl (fl a + pixels v)).
Proof.
  destruct v as [| |n]; try reflexivity.
  unfold js_or, truthy. destruct (Z.eqb_spec n 0) as [->|_]; reflexivity.
Qed.

Lemma js_sub_or (a : Z) (v : value) :
  js_sub (Number a) (js_or v (Number 0)) = Number (fl (fl a - pixels v)).
Proof.
  destruct v as [| |n]; try reflexivity.
  unfold js_or, truthy. destruct (Z.eqb_spec n 0) as [->|_]; reflexivity.
Qed.

(** [a + (v || 0)] and [a - (v || 0)] see [v] through [pixels] only. *)
Lemma js_add_or_ext (a v1 v2 : value) :
  pixels v1 = pixels v2 ->
  js_add a (js_or v1 (Number 0)) = js_add a (js_or v2 (Number 0)).
Proof.
  intros Hsame. destruct a as [| |a]; try reflexivity.
  rewrite !js_add_or, Hsame. reflexivity.
Qed.

Lemma js_sub_or_ext (a v1 v2 : value) :
  pixels v1 = pixels v2 ->
  js_sub a (js_or v1 (Number 0)) = js_sub a (js_or v2 (Number 0)).
Proof.
  intros Hsame. destruct a as [| |a]; try reflexivity.
  rewrite !js_sub_or, Hsame. reflexivity.
Qed.

Lemma pixels_falsy (v : value) : truthy v = false -> pixels v = 0.
Proof.
  destruct v as [| |n]; try reflexivity.
  cbn [truthy]. intros Hn. apply Bool.negb_false_iff, Z.eqb_eq in Hn.
  subst n. reflexivity.
Qed.

Lemma is_double_zero : is_double (Number 0).
Proof. exists 0. split; reflexivity. Qed.

Lemma is_double_add_or (a v : value) :
  is_double a -> is_double (js_add a (js_or v (Number 0))).
Proof.
  intros (n & -> & _). rewrite js_add_or.
  eexists. split; [reflexivity|apply fl_idempotent].
Qed.

Lemma is_double_sub_or (a v : value) :
  is_double a -> is_double (js_sub a (js_or v (Number 0))).
Proof.
  intros (n & -> & _). rewrite js_sub_or.
  eexists. split; [reflexivity|apply fl_idempotent].
Qed.

(** Subtracting an absent or zero scroll offset from a double changes
    nothing. *)
Lemma js_sub_falsy (a v : value) :
  is_double a -> truthy v = false -> js_sub a (js_or v (Number 0)) = a.
Proof.
  intros (n & -> & Hn) Hv.
  rewrite js_sub_or, (pixels_falsy v Hv), Z.sub_0_r, Hn, Hn. reflexivity.
Qed.

(** ** Sums *)

Lemma total_nil attr h : total attr h [] = 0.
Proof. reflexivity. Qed.

Lemma total_cons attr h el l :
  total attr h (el :: l) = pixels (attr (h el)) + total attr h l.
Proof. reflexivity. Qed.

Lemma total_app attr h l1 l2 :
  total attr h (l1 ++ l2) = total attr h l1 + total attr h l2.
Proof.
  induction l1 as [|el l1 IH]; [reflexivity|].
  cbn [app]. rewrite !total_cons, IH. lia.
Qed.

Lemma total_perm attr h l1 l2 :
  l1 ≡ₚ l2 -> total attr h l1 = total attr h l2.
Proof.
  induction 1 as [|el l1 l2 _ IH|a b l|l1 l2 l3 _ IH1 _ IH2].
  - reflexivity.
  - rewrite !total_cons, IH. reflexivity.
  - rewrite !total_cons. lia.
  - congruence.
Qed.

Lemma magnitude_nil attr h : magnitude attr h [] = 0.
Proof. reflexivity. Qed.

Lemma magnitude_cons attr h el l :
  magnitude attr h (el :: l) =
    Z.abs (pixels (attr (h el))) + magnitude attr h l.
Proof. reflexivity. Qed.

Lemma magnitude_nonneg attr h l : 0 <= magnitude attr h l.
Proof.
  induction l as [|el l IH]; [reflexivity|]. rewrite magnitude_cons. lia.
Qed.

Lemma magnitude_app attr h l1 l2 :
  magnitude attr h (l1 ++ l2) = magnitude attr h l1 + magnitude attr h l2.
Proof.
  induction l1 as [|el l1 IH]; [reflexivity|].
  cbn [app]. rewrite !magnitude_cons, IH. lia.
Qed.

Lemma magnitude_perm attr h l1 l2 :
  l1 ≡ₚ l2 -> magnitude attr h l1 = magnitude attr h l2.
Proof.
  induction 1 as [|el l1 l2 _ IH|a b l|l1 l2 l3 _ IH1 _ IH2].
  - reflexivity.
  - rewrite !magnitude_cons, IH. reflexivity.
  - rewrite !magnitude_cons. lia.
  - congruence.
Qed.

Lemma total_le_magnitude attr h l :
  Z.abs (total attr h l) <= magnitude attr h l.
Proof.
  induction l as [|el l IH]; [reflexivity|].
  rewrite total_cons, magnitude_cons. lia.
Qed.

(** ** The ancestor walk *)

Lemma offsetChain_nonempty h el l : offsetChain h el l -> (0 < length l)%nat.
Proof. destruct 1; cbn; lia. Qed.

(** A finite chain is walked to its end, one turn of the loop for each
    element. *)
Lemma offsetWalk_chain h el l :
  offsetChain h el l ->
  forall fuel acc, (length l <= fuel)%nat ->
  offsetWalk fuel el acc h = (Return (walked h l acc), h).
Proof.
  induction 1 as [el Hend|el parent l Hpar _ IH]; intros fuel acc Hfuel;
    (destruct fuel as [|fuel]; [cbn in Hfuel; lia|]);
    cbn [offsetWalk]; unfold bind, get.
  - rewrite Hend. reflexivity.
  - rewrite Hpar. rewrite IH by (cbn in Hfuel; lia). reflexivity.
Qed.

Lemma walked_cons h el l acc :
  walked h (el :: l) acc = walked h l (addOffsets h acc el).
Proof. reflexivity. Qed.

(** Within the limit the walk adds up the offsets exactly. *)
Lemma walked_exact h l :
  forall a b,
  Z.abs a + magnitude offsetLeft h l <= limit ->
  Z.abs b + magnitude offsetTop h l <= limit ->
  walked h l (Number a, Number b) =
    (Number (a + total offsetLeft h l), Number (b + total offsetTop h l)).
Proof.
  induction l as [|el l IH]; intros a b Ha Hb.
  - cbn. rewrite !Z.add_0_r. reflexivity.
  - rewrite magnitude_cons in Ha, Hb.
    pose proof (magnitude_nonneg offsetLeft h l).
    pose proof (magnitude_nonneg offsetTop h l).
    rewrite walked_cons. unfold addOffsets. cbn [fst snd].
    rewrite !js_add_or.
    rewrite (fl_exact a), (fl_exact b) by lia.
    rewrite (fl_exact (a + _)), (fl_exact (b + _)) by lia.
    rewrite IH by lia.
    rewrite !total_cons, !Z.add_assoc. reflexivity.
Qed.

(** The walk turns doubles into doubles. *)
Lemma walked_doubles h l :
  forall acc, is_double acc.1 -> is_double acc.2 ->
  is_double (walked h l acc).1 /\ is_double (walked h l acc).2.
Proof.
  induction l as [|el l IH]; intros acc H1 H2; [split; assumption|].
  rewrite walked_cons.
  apply IH; unfold addOffsets; cbn [fst snd]; apply is_double_add_or;
    assumption.
Qed.

(** The walk only reads the store. *)
Lemma offsetWalk_store fuel : forall el acc h, (offsetWalk fuel el acc h).2 = h.
Proof.
  induction fuel as [|fuel IH]; intros el acc h; [reflexivity|].
  cbn [offsetWalk]. unfold bind, get.
  destruct (offsetParent (h el)); [apply IH|reflexivity].
Qed.

(** The walk raises nothing. *)
Lemma offsetWalk_no_raise fuel :
  forall el acc h e, (offsetWalk fuel el acc h).1 <> Raise e.
Proof.
  induction fuel as [|fuel IH]; intros el acc h e; [discriminate|].
  cbn [offsetWalk]. unfold bind, get.
  destruct (offsetParent (h el)); [apply IH|discriminate].
Qed.

(** A walk that returns has followed a finite chain. *)
Lemma offsetWalk_returns fuel :
  forall el acc h r h',
  offsetWalk fuel el acc h = (Return r, h') ->
  exists l, offsetChain h el l /\ (length l <= fuel)%nat.
Proof.
  induction fuel as [|fuel IH]; intros el acc h r h'; [discriminate|].
  cbn [offsetWalk]. unfold bind, get.
  destruct (offsetParent (h el)) as [parent|] eqn:Hpar.
  - intros Hret. destruct (IH _ _ _ _ _ Hret) as (l & Hl & Hlen).
    exists (el :: l). split; [eapply chain_step; eassumption|cbn; lia].
  - intros _. exists [el]. split; [apply chain_end; assumption|cbn; lia].
Qed.

(** ** The scroll containers *)

Lemma each_cons element cs acc h :
  each subtractScroll (element :: cs) acc h =
  each subtractScroll cs (subScroll h acc element) h.
Proof. reflexivity. Qed.

Lemma each_subtractScroll h cs :
  forall acc,
  each subtractScroll cs acc h = (Return (subtracted h cs acc), h).
Proof.
  induction cs as [|c cs IH]; intros acc; [reflexivity|].
  rewrite each_cons, IH. reflexivity.
Qed.

Lemma each_store h cs : forall acc, (each subtractScroll cs acc h).2 = h.
Proof. intros acc. rewrite each_subtractScroll. reflexivity. Qed.

Lemma each_returns h cs :
  forall acc, exists r, each subtractScroll cs acc h = (Return r, h).
Proof. intros acc. rewrite each_subtractScroll. eexists. reflexivity. Qed.

Lemma subtracted_cons h c cs acc :
  subtracted h (c :: cs) acc = subtracted h cs (subScroll h acc c).
Proof. reflexivity. Qed.

(** Within the limit the scroll offsets are subtracted exactly. *)
Lemma subtracted_exact h cs :
  forall a b,
  Z.abs a + magnitude scrollLeft h cs <= limit ->
  Z.abs b + magnitude scrollTop h cs <= limit ->
  subtracted h cs (Number a, Number b) =
    (Number (a - total scrollLeft h cs), Number (b - total scrollTop h cs)).
Proof.
  induction cs as [|c cs IH]; intros a b Ha Hb.
  - cbn. rewrite !Z.sub_0_r. reflexivity.
  - rewrite magnitude_cons in Ha, Hb.
    pose proof (magnitude_nonneg scrollLeft h cs).
    pose proof (magnitude_nonneg scrollTop h cs).
    rewrite subtracted_cons. unfold subScroll. cbn [fst snd].
    rewrite !js_sub_or.
    rewrite (fl_exact a), (fl_exact b) by lia.
    rewrite (fl_exact (a - _)), (fl_exact (b - _)) by lia.
    rewrite IH by lia.
    rewrite !total_cons, !Z.sub_add_distr. reflexivity.
Qed.

Lemma subtracted_doubles h cs :
  forall acc, is_double acc.1 -> is_double acc.2 ->
  is_double (subtracted h cs acc).1 /\ is_double (subtracted h cs acc).2.
Proof.
  induction cs as [|c cs IH]; intros acc H1 H2; [split; assumption|].
  rewrite subtracted_cons.
  apply IH; unfold subScroll; cbn [fst snd]; apply is_double_sub_or;
    assumption.
Qed.

(** Containers that are not scrolled leave [left] and [top] as they are. *)
Lemma subtracted_falsy h cs :
  forall acc, is_double acc.1 -> is_double acc.2 ->
  (forall c, c ∈ cs ->
     truthy (scrollLeft (h c)) = false /\ truthy (scrollTop (h c)) = false) ->
  subtracted h cs acc = acc.
Proof.
  induction cs as [|c cs IH]; intros [a b] H1 H2 Hfalsy; [reflexivity|].
  rewrite subtracted_cons.
  destruct (Hfalsy c) as [Hl Ht]; [apply elem_of_cons; left; reflexivity|].
  unfold subScroll. cbn [fst snd] in *.
  rewrite (js_sub_falsy a _ H1 Hl), (js_sub_falsy b _ H2 Ht).
  apply IH; [assumption|assumption|].
  intros d Hd. apply Hfalsy. apply elem_of_cons. right. assumption.
Qed.

(** ** Finite chains are acyclic, and are the only ones walked to an end *)

Lemma offsetChain_functional h el l1 :
  offsetChain h el l1 -> forall l2, offsetChain h el l2 -> l1 = l2.
Proof.
  induction 1 as [el Hend|el parent l Hpar _ IH]; intros l2 H2;
    inversion H2; subst; try congruence.
  f_equal. apply IH. congruence.
Qed.

Lemma offsetChain_suffix h el l :
  offsetChain h el l ->
  forall a, a ∈ l ->
  exists l', offsetChain h a l' /\ (length l' <= length l)%nat.
Proof.
  induction 1 as [el Hend|el parent l Hpar Hl IH]; intros a Ha.
  - apply list_elem_of_singleton in Ha as ->.
    exists [el]. split; [apply chain_end; assumption|lia].
  - apply elem_of_cons in Ha as [->|Ha].
    + exists (el :: l). split; [eapply chain_step; eassumption|lia].
    + destruct (IH a Ha) as (l' & Hl' & Hlen).
      exists l'. split; [assumption|cbn; lia].
Qed.

(** No element occurs twice on a finite chain. *)
Lemma offsetChain_acyclic h el l : offsetChain h el l -> NoDup l.
Proof.
  induction 1 as [el Hend|el parent l Hpar Hl IH].
  - apply NoDup_singleton.
  - apply NoDup_cons. split; [|assumption].
    intros Hin.
    destruct (offsetChain_suffix _ _ _ Hl el Hin) as (l' & Hl' & Hlen).
    assert (l' = el :: l) as ->
      by (eapply offsetChain_functional;
          [eassumption|eapply chain_step; eassumption]).
    cbn in Hlen. lia.
Qed.

(** On a cycle the loop never ends, whatever the bound. *)
Lemma offsetWalk_knot fuel : forall acc, (offsetWalk fuel 0%nat acc knot).1 = OutOfFuel.
Proof.
  induction fuel as [|fuel IH]; intros acc; [reflexivity|].
  cbn [offsetWalk]. unfold bind, get. cbn [knot placed offsetParent]. apply IH.
Qed.

(** On an endless chain without a cycle it never ends either. *)
Lemma offsetWalk_ladder fuel :
  forall el acc, (offsetWalk fuel el acc ladder).1 = OutOfFuel.
Proof.
  induction fuel as [|fuel IH]; intros el acc; [reflexivity|].
  cbn [offsetWalk]. unfold bind, get. cbn [ladder placed offsetParent]. apply IH.
Qed.

(** ** [getPosition] *)

Lemma getPosition_unfold fuel this overflown h :
  getPosition fuel this overflown h =
    match offsetWalk fuel this (Number 0, Number 0) h with
    | (Return acc, h') =>
        match each subtractScroll (splat overflown) acc h' with
        | (Return acc', h'') => (Return (Point.mk acc'.1 acc'.2), h'')
        | (Raise e, h'') => (Raise e, h'')
        | (OutOfFuel, h'') => (OutOfFuel, h'')
        end
    | (Raise e, h') => (Raise e, h')
    | (OutOfFuel, h') => (OutOfFuel, h')
    end.
Proof.
  unfold getPosition, bind.
  destruct (offsetWalk fuel this (Number 0, Number 0) h) as [[acc|e|] h'];
    reflexivity.
Qed.

(** The values of [left] and [top] that [getPosition] returns on the chain
    [l] with the containers [cs]. *)
Lemma getPosition_chain h this l overflown fuel :
  offsetChain h this l -> (length l <= fuel)%nat ->
  getPosition fuel this overflown h =
    (Return (Point.mk
       (subtracted h (splat overflown) (walked h l (Number 0, Number 0))).1
       (subtracted h (splat overflown) (walked h l (Number 0, Number 0))).2),
     h).
Proof.
  intros Hchain Hfuel.
  rewrite getPosition_unfold, (offsetWalk_chain _ _ _ Hchain) by assumption.
  rewrite each_subtractScroll. reflexivity.
Qed.

(** On a finite chain [getPosition] returns two doubles. *)
Lemma getPosition_numbers h this l overflown fuel :
  offsetChain h this l -> (length l <= fuel)%nat ->
  exists a b : Z,
    getPosition fuel this overflown h =
      (Return (Point.mk (Number a) (Number b)), h).
Proof.
  intros Hchain Hfuel.
  rewrite (getPosition_chain h this l overflown fuel Hchain Hfuel).
  destruct (walked_doubles h l (Number 0, Number 0)
              is_double_zero is_double_zero) as [Hw1 Hw2].
  destruct (subtracted_doubles h (splat overflown) _ Hw1 Hw2)
    as [(a & -> & _) (b & -> & _)].
  exists a, b. reflexivity.
Qed.

(** Within the limit, [getPosition] returns the sums of the offsets less
    the sums of the scroll offsets. *)
Lemma getPosition_exact h this l overflown fuel :
  offsetChain h this l -> (length l <= fuel)%nat ->
  magnitude offsetLeft h l + magnitude scrollLeft h (splat overflown)
    <= limit ->
  magnitude offsetTop h l + magnitude scrollTop h (splat overflown)
    <= limit ->
  getPosition fuel this overflown h =
    (Return (Point.mk
       (Number (total offsetLeft h l - total scrollLeft h (splat overflown)))
       (Number (total offsetTop h l - total scrollTop h (splat overflown)))),
     h).
Proof.
  intros Hchain Hfuel Hleft Htop.
  rewrite (getPosition_chain h this l overflown fuel Hchain Hfuel).
  pose proof (magnitude_nonneg offsetLeft h l).
  pose proof (magnitude_nonneg offsetTop h l).
  pose proof (magnitude_nonneg scrollLeft h (splat overflown)).
  pose proof (magnitude_nonneg scrollTop h (splat overflown)).
  pose proof (total_le_magnitude offsetLeft h l).
  pose proof (total_le_magnitude offsetTop h l).
  rewrite walked_exact by (cbn [Z.abs]; lia).
  rewrite !Z.add_0_l, subtracted_exact by lia. reflexivity.
Qed.

Lemma getPosition_store fuel this overflown h :
  (getPosition fuel this overflown h).2 = h.
Proof.
  rewrite getPosition_unfold.
  pose proof (offsetWalk_store fuel this (Number 0, Number 0) h) as Hwalk.
  destruct (offsetWalk fuel this (Number 0, Number 0) h) as [[acc|e|] h'];
    cbn in Hwalk; subst h'; try reflexivity.
  pose proof (each_store h (splat overflown) acc) as Heach.
  destruct (each subtractScroll (splat overflown) acc h) as [[acc'|e|] h''];
    exact Heach.
Qed.

Lemma getPosition_no_raise fuel this overflown h e :
  (getPosition fuel this overflown h).1 <> Raise e.
Proof.
  rewrite getPosition_unfold.
  pose proof (offsetWalk_no_raise fuel this (Number 0, Number 0) h) as Hwalk.
  pose proof (offsetWalk_store fuel this (Number 0, Number 0) h) as Hst.
  destruct (offsetWalk fuel this (Number 0, Number 0) h) as [[acc|e'|] h'];
    cbn in Hst; subst h'; [|exfalso; eapply Hwalk; reflexivity|discriminate].
  destruct (each_returns h (splat overflown) acc) as [r ->]. discriminate.
Qed.

(** A call that returns was made on a node whose chain is finite. *)
Lemma getPosition_returns fuel this overflown h p h' :
  getPosition fuel this overflown h = (Return p, h') ->
  exists l, offsetChain h this l /\ (length l <= fuel)%nat.
Proof.
  rewrite getPosition_unfold.
  destruct (offsetWalk fuel this (Number 0, Number 0) h) as [[acc|e|] h1] eqn:Hw;
    try discriminate.
  intros _. eapply offsetWalk_returns. eassumption.
Qed.

(** ** [scrollTo] and [getScroll] *)


(** [scrollTo] leaves every other element as it was. *)
Lemma scrollTo_frame this other x y h :
  this <> other -> (scrollTo this x y h).2 other = h other.
Proof.
  intros Hne. unfold scrollTo, bind, put. cbn [fst snd].
  rewrite !fn_lookup_insert_ne by assumption. reflexivity.
Qed.

(** ** [getCoordinates] *)

Lemma getCoordinates_unfold fuel this overflown h :
  getCoordinates fuel this overflown h =
    match getPosition fuel this overflown h with
    | (Return position, h') =>
        (Return
           (Coordinates.mk
              (Point.y position) (Point.x position)
              (offsetWidth (h' this)) (offsetHeight (h' this))
              (js_add (Point.x position) (offsetWidth (h' this)))
              (js_add (Point.y position) (offsetHeight (h' this)))), h')
    | (Raise e, h') => (Raise e, h')
    | (OutOfFuel, h') => (OutOfFuel, h')
    end.
Proof.
  unfold getCoordinates, bind.
  destruct (getPosition fuel this overflown h) as [[position|e|] h'];
    reflexivity.
Qed.

(** Without a numeric [offsetWidth] the sum [obj.left + obj.width] is [NaN],
    which [==] does not find equal to itself. *)
Example getCoordinates_without_width :
  exists box,
    getCoordinates 1 5%nat Absent nested = (Return box, nested) /\
    Coordinates.right box = NaN /\
    js_eq (Coordinates.right box)
          (js_add (Coordinates.left box) (Coordinates.width box)) = false.
Proof. eexists. repeat split. Qed.

Lemma fl_pixels (v : value) : fl (pixels v) = pixels v.
Proof. destruct v as [| |n]; [reflexivity|reflexivity|apply fl_idempotent]. Qed.

(** * The claims of the specification *)

(** C1, as the specification states it, fails: the sums are sums of
    doubles. Element 0 at (1,0) inside element 1 at (2^53,0) is reported
    at [x = 2^53], while its offsets add up to 2^53 + 1, which no double
    holds. *)
Lemma getPosition_sums_rounded :
  offsetChain faraway 0%nat [0%nat; 1%nat] /\
  getPosition 2 0%nat (Array []) faraway =
    (Return (Point.mk (Number (2 ^ 53)) (Number 0)), faraway) /\
  total offsetLeft faraway [0%nat; 1%nat] - total scrollLeft faraway []
    = 2 ^ 53 + 1 /\
  ~ (forall (h : layout) (this : ref) (l cs : list ref) (fuel : nat),
       offsetChain h this l -> (length l <= fuel)%nat ->
       exists p,
         getPosition fuel this (Array cs) h = (Return p, h) /\
         pixels (Point.x p) = total offsetLeft h l - total scrollLeft h cs /\
         pixels (Point.y p) = total offsetTop h l - total scrollTop h cs).
Proof.
  assert (Hchain : offsetChain faraway 0%nat [0%nat; 1%nat]).
  { eapply chain_step; [reflexivity|]. apply chain_end. reflexivity. }
  assert (Hrun : getPosition 2 0%nat (Array []) faraway =
                 (Return (Point.mk (Number (2 ^ 53)) (Number 0)), faraway))
    by (vm_compute; reflexivity).
  split; [exact Hchain|]. split; [exact Hrun|]. split; [reflexivity|].
  intros Hclaim.
  destruct (Hclaim faraway 0%nat [0%nat; 1%nat] [] 2%nat Hchain (le_n 2))
    as (p & Hp & Hx & _).
  rewrite Hrun in Hp. injection Hp as <-.
  vm_compute in Hx. discriminate Hx.
Qed.

(** C1, amended. For every node whose [offsetParent] chain is finite and
    every sequence of scroll containers, where the offsets and scroll
    offsets are integers whose absolute values add up to at most 2^53 on
    each axis (so that no intermediate result is rounded), [getPosition]
    returns the point whose [x] is the sum of [offsetLeft] (absent treated
    as 0) over the node and all its [offsetParent] ancestors minus the sum
    of [scrollLeft] (absent treated as 0) over the containers, and whose
    [y] is the same with [offsetTop] and [scrollTop]. The store is left as
    it was. *)
Theorem getPosition_sums (h : layout) (this : ref) (l cs : list ref) (fuel : nat) :
  offsetChain h this l -> (length l <= fuel)%nat ->
  magnitude offsetLeft h l + magnitude scrollLeft h cs <= limit ->
  magnitude offsetTop h l + magnitude scrollTop h cs <= limit ->
  getPosition fuel this (Array cs) h =
    (Return (Point.mk
       (Number (total offsetLeft h l - total scrollLeft h cs))
       (Number (total offsetTop h l - total scrollTop h cs))),
     h).
Proof.
  intros Hchain Hfuel Hleft Htop.
  exact (getPosition_exact h this l (Array cs) fuel Hchain Hfuel Hleft Htop).
Qed.

(** C1, the instance of the specification: a node nested three levels deep
    with local offsets (10,5), (20,0) and (0,15) is at [{x: 30, y: 20}]
    when the container list is empty. *)
Lemma getPosition_sums_nested :
  offsetChain nested 0%nat [0%nat; 1%nat; 2%nat] /\
  (length [0%nat; 1%nat; 2%nat] <= 3)%nat /\
  magnitude offsetLeft nested [0%nat; 1%nat; 2%nat]
    + magnitude scrollLeft nested [] <= limit /\
  magnitude offsetTop nested [0%nat; 1%nat; 2%nat]
    + magnitude scrollTop nested [] <= limit /\
  getPosition 3 0%nat (Array []) nested =
    (Return (Point.mk (Number 30) (Number 20)), nested).
Proof.
  assert (Hchain : offsetChain nested 0%nat [0%nat; 1%nat; 2%nat]).
  { eapply chain_step; [reflexivity|].
    eapply chain_step; [reflexivity|].
    apply chain_end. reflexivity. }
  assert (Hleft : magnitude offsetLeft nested [0%nat; 1%nat; 2%nat]
                  + magnitude scrollLeft nested [] <= limit)
    by (apply Z.leb_le; reflexivity).
  assert (Htop : magnitude offsetTop nested [0%nat; 1%nat; 2%nat]
                 + magnitude scrollTop nested [] <= limit)
    by (apply Z.leb_le; reflexivity).
  split; [exact Hchain|]. split; [apply le_n|].
  split; [exact Hleft|]. split; [exact Htop|].
  exact (getPosition_sums nested 0%nat [0%nat; 1%nat; 2%nat] [] 3
           Hchain (le_n 3) Hleft Htop).
Defined.

(** C2, as the specification states it, fails: on a node that is attached
    to no layout tree (here an object without any layout attribute)
    [getPosition] returns the point [{x: 0, y: 0}] and raises nothing. *)
Lemma getPosition_detached_returns_origin :
  detached (nowhere 0%nat) /\
  getPosition 1 0%nat Absent nowhere =
    (Return (Point.mk (Number 0) (Number 0)), nowhere) /\
  ~ (forall (h : layout) (this : ref) (overflown : argument) (fuel : nat),
       detached (h this) ->
       (getPosition (S fuel) this overflown h).1 = Raise InvalidArgument).
Proof.
  assert (Hdet : detached (nowhere 0%nat)) by (repeat split).
  split; [exact Hdet|]. split; [reflexivity|].
  intros Hclaim. specialize (Hclaim nowhere 0%nat Absent 0%nat Hdet).
  discriminate Hclaim.
Qed.

(** C2, amended. For every call of [getPosition] on a node that is
    attached to no layout tree (no [offsetParent], offsets absent or zero)
    and without containers, the call returns the point [{x: 0, y: 0}]; and
    no call on such a node, with whatever containers, raises
    [InvalidArgument]. *)
Theorem getPosition_detached (h : layout) (this : ref) (fuel : nat) :
  detached (h this) ->
  getPosition (S fuel) this Absent h =
    (Return (Point.mk (Number 0) (Number 0)), h) /\
  (forall (overflown : argument) (n : nat),
     (getPosition n this overflown h).1 <> Raise InvalidArgument).
Proof.
  intros (Hpar & Hleft & Htop). split.
  - unfold getPosition, bind. cbn [offsetWalk splat each].
    unfold bind, get. rewrite Hpar. unfold js_or. rewrite Hleft, Htop.
    reflexivity.
  - intros overflown n. apply getPosition_no_raise.
Qed.

Lemma getPosition_detached_blank :
  detached (nowhere 0%nat) /\
  getPosition 1 0%nat Absent nowhere =
    (Return (Point.mk (Number 0) (Number 0)), nowhere) /\
  (forall (overflown : argument) (n : nat),
     (getPosition n 0%nat overflown nowhere).1 <> Raise InvalidArgument).
Proof.
  assert (Hdet : detached (nowhere 0%nat))
    by (split; [reflexivity|split; reflexivity]).
  split; [exact Hdet|].
  exact (getPosition_detached nowhere 0%nat 0%nat Hdet).
Defined.

(** C3. For every node with a finite [offsetParent] chain and every
    container argument, [getCoordinates] returns an object whose [right]
    is [left + width] and whose [bottom] is [top + height], as computed by
    [+]; and where the node has a numeric [offsetWidth] ([offsetHeight]),
    as every element of a layout tree has, [right == left + width]
    ([bottom == top + height]) holds for the [==] of JavaScript. *)
Theorem getCoordinates_right_bottom
  (h : layout) (this : ref) (l : list ref) (overflown : argument) (fuel : nat) :
  offsetChain h this l -> (length l <= fuel)%nat ->
  exists box,
    getCoordinates fuel this overflown h = (Return box, h) /\
    Coordinates.right box =
      js_add (Coordinates.left box) (Coordinates.width box) /\
    Coordinates.bottom box =
      js_add (Coordinates.top box) (Coordinates.height box) /\
    (forall w, offsetWidth (h this) = Number w ->
       js_eq (Coordinates.right box)
             (js_add (Coordinates.left box) (Coordinates.width box)) = true) /\
    (forall ht, offsetHeight (h this) = Number ht ->
       js_eq (Coordinates.bottom box)
             (js_add (Coordinates.top box) (Coordinates.height box)) = true).
Proof.
  intros Hchain Hfuel.
  destruct (getPosition_numbers h this l overflown fuel Hchain Hfuel)
    as (a & b & Hpos).
  rewrite getCoordinates_unfold, Hpos.
  eexists. split; [reflexivity|].
  cbn [Coordinates.right Coordinates.left Coordinates.width Coordinates.bottom
       Coordinates.top Coordinates.height Point.x Point.y].
  split; [reflexivity|]. split; [reflexivity|].
  split; intros n ->; unfold js_add, js_eq; apply Z.eqb_refl.
Qed.

Lemma getCoordinates_right_bottom_scrolled :
  offsetChain scrolled 8%nat [8%nat] /\
  (length [8%nat] <= 1)%nat /\
  exists box,
    getCoordinates 1 8%nat (Single 7%nat) scrolled = (Return box, scrolled) /\
    Coordinates.right box = Number 295 /\
    Coordinates.bottom box = Number 345 /\
    js_eq (Coordinates.right box)
          (js_add (Coordinates.left box) (Coordinates.width box)) = true /\
    js_eq (Coordinates.bottom box)
          (js_add (Coordinates.top box) (Coordinates.height box)) = true.
Proof.
  assert (Hchain : offsetChain scrolled 8%nat [8%nat])
    by (apply chain_end; reflexivity).
  split; [exact Hchain|]. split; [apply le_n|].
  destruct (getCoordinates_right_bottom scrolled 8%nat [8%nat] (Single 7%nat) 1
              Hchain (le_n 1)) as (box & Hrun & Hright & Hbottom & Hw & Hh).
  exists box. split; [exact Hrun|].
  assert (Hbox : Return (A := Coordinates.t) box =
                 (getCoordinates 1 8%nat (Single 7%nat) scrolled).1)
    by (rewrite Hrun; reflexivity).
  injection Hbox as ->.
  split; [reflexivity|]. split; [reflexivity|].
  split; [exact (Hw 200 eq_refl)|exact (Hh 300 eq_refl)].
Defined.


(** C5. For every node without an [offsetParent], [getPosition] with an
    empty container list returns the node's own [offsetLeft] and
    [offsetTop], absent offsets treated as 0. *)
Theorem getPosition_no_parent (h : layout) (this : ref) (fuel : nat) :
  offsetParent (h this) = None ->
  getPosition (S fuel) this (Array []) h =
    (Return (Point.mk (Number (pixels (offsetLeft (h this))))
                      (Number (pixels (offsetTop (h this))))), h).
Proof.
  intros Hpar.
  rewrite (getPosition_chain h this [this] (Array []) (S fuel));
    [|apply chain_end; assumption|cbn; lia].
  cbn [splat subtracted walked fold_left fst snd]. unfold addOffsets.
  cbn [fst snd]. rewrite !js_add_or, fl_0, !Z.add_0_l, !fl_pixels.
  reflexivity.
Qed.

Lemma getPosition_no_parent_scrolled :
  offsetParent (scrolled 8%nat) = None /\
  getPosition 1 8%nat (Array []) scrolled =
    (Return (Point.mk (Number 100) (Number 50)), scrolled).
Proof.
  split; [reflexivity|].
  exact (getPosition_no_parent scrolled 8%nat 0%nat eq_refl).
Defined.

(** C6, as the specification states it, fails: a difference of doubles is
    rounded. Element 2 stands at [x = 2^54]; with container 5, scrolled by
    (5,5), appended it is reported at [x = 2^54 - 4], the double nearest
    to 2^54 - 5: it has moved by -4. *)
Lemma getPosition_append_container_rounded :
  offsetChain faraway 2%nat [2%nat] /\
  scrollLeft (faraway 5%nat) = Number 5 /\
  scrollTop (faraway 5%nat) = Number 5 /\
  getPosition 1 2%nat (Array []) faraway =
    (Return (Point.mk (Number (2 ^ 54)) (Number 0)), faraway) /\
  getPosition 1 2%nat (Array ([] ++ [5%nat])) faraway =
    (Return (Point.mk (Number (2 ^ 54 - 4)) (Number (-5))), faraway) /\
  ~ (forall (h : layout) (this : ref) (l cs : list ref) (c : ref) (fuel : nat),
       offsetChain h this l -> (length l <= fuel)%nat ->
       scrollLeft (h c) = Number 5 -> scrollTop (h c) = Number 5 ->
       exists p q,
         getPosition fuel this (Array cs) h = (Return p, h) /\
         getPosition fuel this (Array (cs ++ [c])) h = (Return q, h) /\
         pixels (Point.x q) = pixels (Point.x p) - 5 /\
         pixels (Point.y q) = pixels (Point.y p) - 5).
Proof.
  assert (Hchain : offsetChain faraway 2%nat [2%nat])
    by (apply chain_end; reflexivity).
  assert (Hwithout : getPosition 1 2%nat (Array []) faraway =
            (Return (Point.mk (Number (2 ^ 54)) (Number 0)), faraway))
    by (vm_compute; reflexivity).
  assert (Hwith : getPosition 1 2%nat (Array ([] ++ [5%nat])) faraway =
            (Return (Point.mk (Number (2 ^ 54 - 4)) (Number (-5))), faraway))
    by (vm_compute; reflexivity).
  split; [exact Hchain|]. split; [reflexivity|]. split; [reflexivity|].
  split; [exact Hwithout|]. split; [exact Hwith|].
  intros Hclaim.
  destruct (Hclaim faraway 2%nat [2%nat] [] 5%nat 1%nat Hchain (le_n 1)
              eq_refl eq_refl) as (p & q & Hp & Hq & Hx & _).
  pose proof (eq_trans (eq_sym Hp) Hwithout) as Ep. injection Ep as ->.
  pose proof (eq_trans (eq_sym Hq) Hwith) as Eq. injection Eq as ->.
  vm_compute in Hx. discriminate Hx.
Qed.

(** C6, amended. For every node with a finite [offsetParent] chain and
    every container list, where the offsets and scroll offsets, those of
    the appended container included, are integers whose absolute values
    add up to at most 2^53 on each axis, appending one more container
    whose [scrollLeft] and [scrollTop] are 5 moves the point [getPosition]
    returns by exactly (-5, -5). *)
Theorem getPosition_append_container
  (h : layout) (this : ref) (l cs : list ref) (c : ref) (fuel : nat) :
  offsetChain h this l -> (length l <= fuel)%nat ->
  scrollLeft (h c) = Number 5 -> scrollTop (h c) = Number 5 ->
  magnitude offsetLeft h l + magnitude scrollLeft h (cs ++ [c]) <= limit ->
  magnitude offsetTop h l + magnitude scrollTop h (cs ++ [c]) <= limit ->
  exists px py : Z,
    getPosition fuel this (Array cs) h =
      (Return (Point.mk (Number px) (Number py)), h) /\
    getPosition fuel this (Array (cs ++ [c])) h =
      (Return (Point.mk (Number (px - 5)) (Number (py - 5))), h).
Proof.
  intros Hchain Hfuel Hleft Htop Hbl Hbt.
  exists (total offsetLeft h l - total scrollLeft h cs),
         (total offsetTop h l - total scrollTop h cs).
  pose proof (magnitude_nonneg scrollLeft h [c]).
  pose proof (magnitude_nonneg scrollTop h [c]).
  rewrite !magnitude_app in Hbl, Hbt.
  split; [apply getPosition_exact; cbn [splat]; [assumption|assumption|lia|lia]|].
  rewrite (getPosition_exact h this l (Array (cs ++ [c])) fuel Hchain Hfuel);
    cbn [splat]; [|rewrite magnitude_app; lia|rewrite magnitude_app; lia].
  rewrite !total_app, !total_cons, !total_nil, Hleft, Htop.
  cbn [pixels]. rewrite (fl_exact 5) by (apply Z.leb_le; reflexivity).
  rewrite !Z.add_0_r, !Z.sub_add_distr. reflexivity.
Qed.

Lemma getPosition_append_container_scrolled :
  offsetChain scrolled 0%nat [0%nat; 1%nat; 2%nat] /\
  (length [0%nat; 1%nat; 2%nat] <= 3)%nat /\
  scrollLeft (scrolled 7%nat) = Number 5 /\
  scrollTop (scrolled 7%nat) = Number 5 /\
  magnitude offsetLeft scrolled [0%nat; 1%nat; 2%nat]
    + magnitude scrollLeft scrolled ([] ++ [7%nat]) <= limit /\
  magnitude offsetTop scrolled [0%nat; 1%nat; 2%nat]
    + magnitude scrollTop scrolled ([] ++ [7%nat]) <= limit /\
  getPosition 3 0%nat (Array []) scrolled =
    (Return (Point.mk (Number 30) (Number 20)), scrolled) /\
  getPosition 3 0%nat (Array ([] ++ [7%nat])) scrolled =
    (Return (Point.mk (Number 25) (Number 15)), scrolled).
Proof.
  assert (Hchain : offsetChain scrolled 0%nat [0%nat; 1%nat; 2%nat]).
  { eapply chain_step; [reflexivity|].
    eapply chain_step; [reflexivity|].
    apply chain_end. reflexivity. }
  assert (Hbl : magnitude offsetLeft scrolled [0%nat; 1%nat; 2%nat]
                + magnitude scrollLeft scrolled ([] ++ [7%nat]) <= limit)
    by (apply Z.leb_le; reflexivity).
  assert (Hbt : magnitude offsetTop scrolled [0%nat; 1%nat; 2%nat]
                + magnitude scrollTop scrolled ([] ++ [7%nat]) <= limit)
    by (apply Z.leb_le; reflexivity).
  split; [exact Hchain|]. split; [apply le_n|].
  split; [reflexivity|]. split; [reflexivity|].
  split; [exact Hbl|]. split; [exact Hbt|].
  destruct (getPosition_append_container scrolled 0%nat [0%nat; 1%nat; 2%nat]
              [] 7%nat 3 Hchain (le_n 3) eq_refl eq_refl Hbl Hbt)
    as (px & py & Hwithout & Hwith).
  assert (Hval : (getPosition 3 0%nat (Array []) scrolled).1 =
                 Return (Point.mk (Number 30) (Number 20))) by reflexivity.
  rewrite Hwithout in Hval. cbn [fst] in Hval. injection Hval as -> ->.
  split; [exact Hwithout|exact Hwith].
Defined.

(** C7. [getPosition] is a deterministic function of the node, the
    containers and the layout store, and it changes no node: the store
    after the call is the store before it, and a second call in the store
    the first one leaves gives the outcome of the first. *)
Theorem getPosition_pure
  (fuel : nat) (this : ref) (overflown : argument) (h : layout) :
  (getPosition fuel this overflown h).2 = h /\
  getPosition fuel this overflown (getPosition fuel this overflown h).2 =
    getPosition fuel this overflown h.
Proof.
  split; [apply getPosition_store|].
  rewrite getPosition_store. reflexivity.
Qed.

(** C8. For every node and every single container [c] passed without an
    array around it, [getPosition] does what it does on the one-element
    array [[c]]; and with the argument left out it does what it does on
    the empty array. *)
Theorem getPosition_single_container
  (fuel : nat) (this c : ref) (h : layout) :
  getPosition fuel this (Single c) h = getPosition fuel this (Array [c]) h /\
  getPosition fuel this Absent h = getPosition fuel this (Array []) h.
Proof. split; reflexivity. Qed.

(** C9. For every node whose [offsetParent] chain is finite (and hence
    without a cycle), the loop of [getPosition] ends: there is a point that
    the call returns under every bound that covers the chain. *)
Theorem getPosition_terminates
  (h : layout) (this : ref) (l : list ref) (overflown : argument) :
  offsetChain h this l ->
  NoDup l /\
  exists p, forall fuel, (length l <= fuel)%nat ->
    getPosition fuel this overflown h = (Return p, h).
Proof.
  intros Hchain. split; [eapply offsetChain_acyclic; eassumption|].
  eexists. intros fuel Hfuel.
  exact (getPosition_chain h this l overflown fuel Hchain Hfuel).
Qed.

Lemma getPosition_terminates_nested :
  offsetChain nested 0%nat [0%nat; 1%nat; 2%nat] /\
  NoDup [0%nat; 1%nat; 2%nat] /\
  exists p, forall fuel, (length [0%nat; 1%nat; 2%nat] <= fuel)%nat ->
    getPosition fuel 0%nat Absent nested = (Return p, nested).
Proof.
  assert (Hchain : offsetChain nested 0%nat [0%nat; 1%nat; 2%nat]).
  { eapply chain_step; [reflexivity|].
    eapply chain_step; [reflexivity|].
    apply chain_end. reflexivity. }
  split; [exact Hchain|].
  exact (getPosition_terminates nested 0%nat [0%nat; 1%nat; 2%nat] Absent Hchain).
Defined.

(** Where the chain has a cycle, or has no end, no bound is enough. *)
Lemma getPosition_knot fuel overflown :
  (getPosition fuel 0%nat overflown knot).1 = OutOfFuel.
Proof.
  rewrite getPosition_unfold.
  pose proof (offsetWalk_knot fuel (Number 0, Number 0)) as Hwalk.
  destruct (offsetWalk fuel 0%nat (Number 0, Number 0) knot) as [[acc|e|] h'];
    cbn in Hwalk; try discriminate. reflexivity.
Qed.

Lemma getPosition_ladder fuel this overflown :
  (getPosition fuel this overflown ladder).1 = OutOfFuel.
Proof.
  rewrite getPosition_unfold.
  pose proof (offsetWalk_ladder fuel this (Number 0, Number 0)) as Hwalk.
  destruct (offsetWalk fuel this (Number 0, Number 0) ladder) as [[acc|e|] h'];
    cbn in Hwalk; try discriminate. reflexivity.
Qed.

(** C10, as the specification states it, fails: subtraction of doubles
    depends on the order. On a node at the origin, with container 3
    scrolled by 2^53 and container 4 scrolled by 1, the list [3; 4; 4]
    gives [x = -2^53] and its permutation [4; 4; 3] gives
    [x = -(2^53 + 2)]. *)
Lemma getPosition_containers_order :
  [3%nat; 4%nat; 4%nat] ≡ₚ [4%nat; 4%nat; 3%nat] /\
  getPosition 1 9%nat (Array [3%nat; 4%nat; 4%nat]) faraway =
    (Return (Point.mk (Number (- 2 ^ 53)) (Number 0)), faraway) /\
  getPosition 1 9%nat (Array [4%nat; 4%nat; 3%nat]) faraway =
    (Return (Point.mk (Number (- (2 ^ 53 + 2))) (Number 0)), faraway) /\
  pixels (Number (- 2 ^ 53)) <> pixels (Number (- (2 ^ 53 + 2))) /\
  ~ (forall (h : layout) (this : ref) (cs cs' : list ref) (fuel : nat),
       cs ≡ₚ cs' ->
       getPosition fuel this (Array cs') h = getPosition fuel this (Array cs) h).
Proof.
  assert (Hperm : [3%nat; 4%nat; 4%nat] ≡ₚ [4%nat; 4%nat; 3%nat])
    by (apply (Permutation_cons_append [4%nat; 4%nat] 3%nat)).
  assert (Hone : getPosition 1 9%nat (Array [3%nat; 4%nat; 4%nat]) faraway =
            (Return (Point.mk (Number (- 2 ^ 53)) (Number 0)), faraway))
    by (vm_compute; reflexivity).
  assert (Htwo : getPosition 1 9%nat (Array [4%nat; 4%nat; 3%nat]) faraway =
            (Return (Point.mk (Number (- (2 ^ 53 + 2))) (Number 0)), faraway))
    by (vm_compute; reflexivity).
  split; [exact Hperm|]. split; [exact Hone|]. split; [exact Htwo|].
  split; [vm_compute; discriminate|].
  intros Hclaim.
  specialize (Hclaim faraway 9%nat _ _ 1%nat Hperm).
  rewrite Hone, Htwo in Hclaim. vm_compute in Hclaim. discriminate Hclaim.
Qed.

(** C10, amended. On a node with a finite [offsetParent] chain, where the
    offsets and scroll offsets are integers whose absolute values add up
    to at most 2^53 on each axis, the point [getPosition] returns depends
    on the containers as a multiset: two container lists that are
    permutations of each other give the same outcome; and nothing is
    deduplicated: a container listed twice has its scroll offset
    subtracted twice. *)
Theorem getPosition_containers_multiset
  (h : layout) (this : ref) (l cs : list ref) (fuel : nat) :
  offsetChain h this l -> (length l <= fuel)%nat ->
  magnitude offsetLeft h l + magnitude scrollLeft h cs <= limit ->
  magnitude offsetTop h l + magnitude scrollTop h cs <= limit ->
  (forall cs', cs ≡ₚ cs' ->
     getPosition fuel this (Array cs') h = getPosition fuel this (Array cs) h) /\
  (forall c cs0, cs = c :: c :: cs0 ->
     exists px py : Z,
       getPosition fuel this (Array cs0) h =
         (Return (Point.mk (Number px) (Number py)), h) /\
       getPosition fuel this (Array cs) h =
         (Return (Point.mk (Number (px - 2 * pixels (scrollLeft (h c))))
                           (Number (py - 2 * pixels (scrollTop (h c))))), h)).
Proof.
  intros Hchain Hfuel Hbl Hbt. split.
  - intros cs' Hperm.
    rewrite (getPosition_exact h this l (Array cs) fuel Hchain Hfuel Hbl Hbt).
    rewrite (getPosition_exact h this l (Array cs') fuel Hchain Hfuel);
      cbn [splat];
      [|rewrite <- (magnitude_perm scrollLeft h cs cs' Hperm); assumption
       |rewrite <- (magnitude_perm scrollTop h cs cs' Hperm); assumption].
    rewrite (total_perm scrollLeft h cs cs' Hperm),
      (total_perm scrollTop h cs cs' Hperm). reflexivity.
  - intros c cs0 ->.
    exists (total offsetLeft h l - total scrollLeft h cs0),
           (total offsetTop h l - total scrollTop h cs0).
    rewrite !magnitude_cons in Hbl, Hbt.
    split; [apply getPosition_exact; cbn [splat]; [assumption|assumption|lia|lia]|].
    rewrite (getPosition_exact h this l (Array (c :: c :: cs0)) fuel
               Hchain Hfuel);
      cbn [splat]; [|rewrite !magnitude_cons; lia|rewrite !magnitude_cons; lia].
    rewrite !total_cons.
    assert (Htwice : forall a t p : Z, a - (p + (p + t)) = a - t - 2 * p)
      by (intros; lia).
    rewrite !Htwice. reflexivity.
Qed.

Lemma getPosition_containers_multiset_scrolled :
  offsetChain scrolled 0%nat [0%nat; 1%nat; 2%nat] /\
  (length [0%nat; 1%nat; 2%nat] <= 3)%nat /\
  magnitude offsetLeft scrolled [0%nat; 1%nat; 2%nat]
    + magnitude scrollLeft scrolled [7%nat; 7%nat; 8%nat] <= limit /\
  magnitude offsetTop scrolled [0%nat; 1%nat; 2%nat]
    + magnitude scrollTop scrolled [7%nat; 7%nat; 8%nat] <= limit /\
  getPosition 3 0%nat (Array [8%nat; 7%nat; 7%nat]) scrolled =
    getPosition 3 0%nat (Array [7%nat; 7%nat; 8%nat]) scrolled /\
  getPosition 3 0%nat (Array [8%nat]) scrolled =
    (Return (Point.mk (Number 30) (Number 20)), scrolled) /\
  getPosition 3 0%nat (Array [7%nat; 7%nat; 8%nat]) scrolled =
    (Return (Point.mk (Number 20) (Number 10)), scrolled).
Proof.
  assert (Hchain : offsetChain scrolled 0%nat [0%nat; 1%nat; 2%nat]).
  { eapply chain_step; [reflexivity|].
    eapply chain_step; [reflexivity|].
    apply chain_end. reflexivity. }
  assert (Hbl : magnitude offsetLeft scrolled [0%nat; 1%nat; 2%nat]
                + magnitude scrollLeft scrolled [7%nat; 7%nat; 8%nat] <= limit)
    by (apply Z.leb_le; reflexivity).
  assert (Hbt : magnitude offsetTop scrolled [0%nat; 1%nat; 2%nat]
                + magnitude scrollTop scrolled [7%nat; 7%nat; 8%nat] <= limit)
    by (apply Z.leb_le; reflexivity).
  split; [exact Hchain|]. split; [apply le_n|].
  split; [exact Hbl|]. split; [exact Hbt|].
  destruct (getPosition_containers_multiset scrolled 0%nat
              [0%nat; 1%nat; 2%nat] [7%nat; 7%nat; 8%nat] 3
              Hchain (le_n 3) Hbl Hbt) as [Hperm Htwice].
  split.
  - apply Hperm.
    apply (Permutation_sym (Permutation_cons_append [7%nat; 7%nat] 8%nat)).
  - destruct (Htwice 7%nat [8%nat] eq_refl) as (px & py & Hone & Htwo).
    assert (Hval : (getPosition 3 0%nat (Array [8%nat]) scrolled).1 =
                   Return (Point.mk (Number 30) (Number 20))) by reflexivity.
    rewrite Hone in Hval. cbn [fst] in Hval. injection Hval as -> ->.
    split; [exact Hone|exact Htwo].
Defined.

(** * Further properties of the methods *)

(** ** What [scrollTo] writes *)

Lemma scrollTo_this this x y (h : layout) :
  (scrollTo this x y h).2 this = set_scrollTop y (set_scrollLeft x (h this)).
Proof.
  unfold scrollTo, bind, put. cbn [fst snd].
  rewrite !fn_lookup_insert. reflexivity.
Qed.

Lemma scrollTo_cases this x y (h : layout) r :
  (scrollTo this x y h).2 r =
    if decide (this = r) then set_scrollTop y (set_scrollLeft x (h r)) else h r.
Proof.
  destruct (decide (this = r)) as [->|Hne].
  - apply scrollTo_this.
  - apply scrollTo_frame. assumption.
Qed.

Lemma offsetChain_scrollTo c x y (h : layout) el l :
  offsetChain h el l -> offsetChain (scrollTo c x y h).2 el l.
Proof.
  induction 1 as [el Hend|el parent l Hpar _ IH].
  - apply chain_end. rewrite scrollTo_cases.
    destruct (decide (c = el)); assumption.
  - eapply chain_step; [|exact IH]. rewrite scrollTo_cases.
    destruct (decide (c = el)); assumption.
Qed.

Lemma total_offsets_scrollTo c x y (h : layout) l :
  total offsetLeft (scrollTo c x y h).2 l = total offsetLeft h l /\
  total offsetTop (scrollTo c x y h).2 l = total offsetTop h l.
Proof.
  induction l as [|el l [IHl IHt]]; [split; reflexivity|].
  rewrite !total_cons, IHl, IHt, scrollTo_cases.
  destruct (decide (c = el)); split; reflexivity.
Qed.

Lemma magnitude_offsets_scrollTo c x y (h : layout) l :
  magnitude offsetLeft (scrollTo c x y h).2 l = magnitude offsetLeft h l /\
  magnitude offsetTop (scrollTo c x y h).2 l = magnitude offsetTop h l.
Proof.
  induction l as [|el l [IHl IHt]]; [split; reflexivity|].
  rewrite !magnitude_cons, IHl, IHt, scrollTo_cases.
  destruct (decide (c = el)); split; reflexivity.
Qed.

(** ** What the outcome of [getPosition] depends on *)

Lemma offsetWalk_ext (h1 h2 : layout) :
  (forall r, offsetParent (h1 r) = offsetParent (h2 r) /\
             pixels (offsetLeft (h1 r)) = pixels (offsetLeft (h2 r)) /\
             pixels (offsetTop (h1 r)) = pixels (offsetTop (h2 r))) ->
  forall fuel el acc,
    (offsetWalk fuel el acc h1).1 = (offsetWalk fuel el acc h2).1.
Proof.
  intros Hsame. induction fuel as [|fuel IH]; intros el acc; [reflexivity|].
  cbn [offsetWalk]. unfold bind, get.
  destruct (Hsame el) as (-> & Hl & Ht).
  rewrite (js_add_or_ext acc.1 _ _ Hl), (js_add_or_ext acc.2 _ _ Ht).
  destruct (offsetParent (h2 el)); [apply IH|reflexivity].
Qed.

Lemma each_ext (h1 h2 : layout) cs :
  (forall c, c ∈ cs ->
     pixels (scrollLeft (h1 c)) = pixels (scrollLeft (h2 c)) /\
     pixels (scrollTop (h1 c)) = pixels (scrollTop (h2 c))) ->
  forall acc,
    (each subtractScroll cs acc h1).1 = (each subtractScroll cs acc h2).1.
Proof.
  induction cs as [|c cs IH]; intros Hsame acc; [reflexivity|].
  rewrite !each_cons. unfold subScroll.
  destruct (Hsame c) as [Hl Ht]; [apply elem_of_cons; left; reflexivity|].
  rewrite (js_sub_or_ext acc.1 _ _ Hl), (js_sub_or_ext acc.2 _ _ Ht).
  apply IH. intros d Hd. apply Hsame. apply elem_of_cons. right. assumption.
Qed.

(** The outcome of [getPosition], apart from the store. *)
Lemma getPosition_outcome fuel this overflown (h : layout) :
  (getPosition fuel this overflown h).1 =
    match (offsetWalk fuel this (Number 0, Number 0) h).1 with
    | Return acc =>
        match (each subtractScroll (splat overflown) acc h).1 with
        | Return acc' => Return (Point.mk acc'.1 acc'.2)
        | Raise e => Raise e
        | OutOfFuel => OutOfFuel
        end
    | Raise e => Raise e
    | OutOfFuel => OutOfFuel
    end.
Proof.
  rewrite getPosition_unfold.
  pose proof (offsetWalk_store fuel this (Number 0, Number 0) h) as Hst.
  destruct (offsetWalk fuel this (Number 0, Number 0) h) as [[acc|e|] h'];
    cbn in Hst; subst h'; try reflexivity.
  cbn [fst].
  destruct (each subtractScroll (splat overflown) acc h) as [[acc'|e|] h''];
    reflexivity.
Qed.

Lemma getPosition_ext fuel this overflown (h1 h2 : layout) :
  (forall r, offsetParent (h1 r) = offsetParent (h2 r) /\
             pixels (offsetLeft (h1 r)) = pixels (offsetLeft (h2 r)) /\
             pixels (offsetTop (h1 r)) = pixels (offsetTop (h2 r))) ->
  (forall c, c ∈ splat overflown ->
     pixels (scrollLeft (h1 c)) = pixels (scrollLeft (h2 c)) /\
     pixels (scrollTop (h1 c)) = pixels (scrollTop (h2 c))) ->
  (getPosition fuel this overflown h1).1 =
  (getPosition fuel this overflown h2).1.
Proof.
  intros Hoff Hscroll. rewrite !getPosition_outcome.
  rewrite (offsetWalk_ext h1 h2 Hoff).
  destruct (offsetWalk fuel this (Number 0, Number 0) h2).1 as [acc|e|];
    try reflexivity.
  rewrite (each_ext h1 h2 _ Hscroll). reflexivity.
Qed.

(** Without a finite chain the walk runs out of every bound. *)
Lemma offsetWalk_endless (h : layout) :
  forall fuel el acc,
  (forall l, ~ offsetChain h el l) ->
  offsetWalk fuel el acc h = (OutOfFuel, h).
Proof.
  induction fuel as [|fuel IH]; intros el acc Hno; [reflexivity|].
  cbn [offsetWalk]. unfold bind, get.
  destruct (offsetParent (h el)) as [parent|] eqn:Hpar.
  - apply IH. intros l Hl. apply (Hno (el :: l)).
    eapply chain_step; eassumption.
  - exfalso. apply (Hno [el]). apply chain_end. assumption.
Qed.

Lemma knot_no_chain l el : ~ offsetChain knot el l.
Proof.
  intros Hchain. induction Hchain as [el Hend|el parent l Hpar _ IH].
  - discriminate Hend.
  - exact IH.
Qed.

Lemma getCoordinates_outcome fuel this overflown (h : layout) :
  (getCoordinates fuel this overflown h).1 =
    match (getPosition fuel this overflown h).1 with
    | Return position =>
        Return (Coordinates.mk
                  (Point.y position) (Point.x position)
                  (offsetWidth (h this)) (offsetHeight (h this))
                  (js_add (Point.x position) (offsetWidth (h this)))
                  (js_add (Point.y position) (offsetHeight (h this))))
    | Raise e => Raise e
    | OutOfFuel => OutOfFuel
    end.
Proof.
  rewrite getCoordinates_unfold.
  pose proof (getPosition_store fuel this overflown h) as Hst.
  destruct (getPosition fuel this overflown h) as [[position|e|] h'];
    cbn in Hst; subst h'; reflexivity.
Qed.

(** ** [getLeft], [getTop] and [getCoordinates] in closed form *)

(** X1. On a node with a finite [offsetParent] chain, where the offsets
    and scroll offsets are integers whose absolute values add up to at
    most 2^53 on each axis, [getLeft] returns the sum of [offsetLeft || 0]
    over the chain less the sum of [scrollLeft || 0] over the containers,
    and [getTop] the same with [offsetTop] and [scrollTop]; both leave the
    store as it was. *)
Theorem getLeft_getTop_sums
  (h : layout) (this : ref) (l cs : list ref) (fuel : nat) :
  offsetChain h this l -> (length l <= fuel)%nat ->
  magnitude offsetLeft h l + magnitude scrollLeft h cs <= limit ->
  magnitude offsetTop h l + magnitude scrollTop h cs <= limit ->
  getLeft fuel this (Array cs) h =
    (Return (Number (total offsetLeft h l - total scrollLeft h cs)), h) /\
  getTop fuel this (Array cs) h =
    (Return (Number (total offsetTop h l - total scrollTop h cs)), h).
Proof.
  intros Hchain Hfuel Hbl Hbt. unfold getLeft, getTop, bind.
  rewrite (getPosition_exact h this l (Array cs) fuel Hchain Hfuel Hbl Hbt).
  split; reflexivity.
Qed.

Lemma getLeft_getTop_sums_scrolled :
  offsetChain scrolled 0%nat [0%nat; 1%nat; 2%nat] /\
  (length [0%nat; 1%nat; 2%nat] <= 4)%nat /\
  magnitude offsetLeft scrolled [0%nat; 1%nat; 2%nat]
    + magnitude scrollLeft scrolled [7%nat] <= limit /\
  magnitude offsetTop scrolled [0%nat; 1%nat; 2%nat]
    + magnitude scrollTop scrolled [7%nat] <= limit /\
  getLeft 4 0%nat (Array [7%nat]) scrolled = (Return (Number 25), scrolled) /\
  getTop 4 0%nat (Array [7%nat]) scrolled = (Return (Number 15), scrolled).
Proof.
  assert (Hchain : offsetChain scrolled 0%nat [0%nat; 1%nat; 2%nat]).
  { eapply chain_step; [reflexivity|].
    eapply chain_step; [reflexivity|].
    apply chain_end. reflexivity. }
  assert (Hbl : magnitude offsetLeft scrolled [0%nat; 1%nat; 2%nat]
                + magnitude scrollLeft scrolled [7%nat] <= limit)
    by (apply Z.leb_le; reflexivity).
  assert (Hbt : magnitude offsetTop scrolled [0%nat; 1%nat; 2%nat]
                + magnitude scrollTop scrolled [7%nat] <= limit)
    by (apply Z.leb_le; reflexivity).
  split; [exact Hchain|]. split; [exact (le_S _ _ (le_n 3))|].
  split; [exact Hbl|]. split; [exact Hbt|].
  exact (getLeft_getTop_sums scrolled 0%nat [0%nat; 1%nat; 2%nat] [7%nat] 4
           Hchain (le_S _ _ (le_n 3)) Hbl Hbt).
Defined.

(** X2. On a node with a finite chain and a numeric [offsetWidth] [w] and
    [offsetHeight] [ht], where the offsets, the scroll offsets and the size
    are integers whose absolute values add up to at most 2^53 on each
    axis, [getCoordinates] returns the position as [left] and [top], [w]
    and [ht] as [width] and [height], and the numbers [left + w] and
    [top + ht] as [right] and [bottom]. *)
Theorem getCoordinates_box
  (h : layout) (this : ref) (l cs : list ref) (fuel : nat) (w ht : Z) :
  offsetChain h this l -> (length l <= fuel)%nat ->
  offsetWidth (h this) = Number w -> offsetHeight (h this) = Number ht ->
  magnitude offsetLeft h l + magnitude scrollLeft h cs + Z.abs w <= limit ->
  magnitude offsetTop h l + magnitude scrollTop h cs + Z.abs ht <= limit ->
  getCoordinates fuel this (Array cs) h =
    (Return
       (Coordinates.mk
          (Number (total offsetTop h l - total scrollTop h cs))
          (Number (total offsetLeft h l - total scrollLeft h cs))
          (Number w) (Number ht)
          (Number (total offsetLeft h l - total scrollLeft h cs + w))
          (Number (total offsetTop h l - total scrollTop h cs + ht))), h).
Proof.
  intros Hchain Hfuel Hw Hht Hbl Hbt.
  pose proof (total_le_magnitude offsetLeft h l).
  pose proof (total_le_magnitude offsetTop h l).
  pose proof (total_le_magnitude scrollLeft h cs).
  pose proof (total_le_magnitude scrollTop h cs).
  rewrite getCoordinates_unfold,
    (getPosition_exact h this l (Array cs) fuel Hchain Hfuel), Hw, Hht
    by (cbn [splat]; lia).
  cbn [splat Point.x Point.y]. unfold js_add.
  rewrite (fl_exact w), (fl_exact ht) by lia.
  rewrite (fl_exact (total offsetLeft h l - total scrollLeft h cs)),
    (fl_exact (total offsetTop h l - total scrollTop h cs)) by lia.
  rewrite (fl_exact (total offsetLeft h l - total scrollLeft h cs + w)),
    (fl_exact (total offsetTop h l - total scrollTop h cs + ht)) by lia.
  reflexivity.
Qed.

Lemma getCoordinates_box_scrolled :
  offsetChain scrolled 8%nat [8%nat] /\ (length [8%nat] <= 1)%nat /\
  offsetWidth (scrolled 8%nat) = Number 200 /\
  offsetHeight (scrolled 8%nat) = Number 300 /\
  magnitude offsetLeft scrolled [8%nat]
    + magnitude scrollLeft scrolled [7%nat] + Z.abs 200 <= limit /\
  magnitude offsetTop scrolled [8%nat]
    + magnitude scrollTop scrolled [7%nat] + Z.abs 300 <= limit /\
  getCoordinates 1 8%nat (Array [7%nat]) scrolled =
    (Return (Coordinates.mk (Number 45) (Number 95) (Number 200) (Number 300)
                            (Number 295) (Number 345)), scrolled).
Proof.
  assert (Hchain : offsetChain scrolled 8%nat [8%nat])
    by (apply chain_end; reflexivity).
  assert (Hbl : magnitude offsetLeft scrolled [8%nat]
                + magnitude scrollLeft scrolled [7%nat] + Z.abs 200 <= limit)
    by (apply Z.leb_le; reflexivity).
  assert (Hbt : magnitude offsetTop scrolled [8%nat]
                + magnitude scrollTop scrolled [7%nat] + Z.abs 300 <= limit)
    by (apply Z.leb_le; reflexivity).
  split; [exact Hchain|]. split; [apply le_n|].
  split; [reflexivity|]. split; [reflexivity|].
  split; [exact Hbl|]. split; [exact Hbt|].
  exact (getCoordinates_box scrolled 8%nat [8%nat] [7%nat] 1 200 300
           Hchain (le_n 1) eq_refl eq_refl Hbl Hbt).
Defined.

(** X3. The methods agree with each other: on a node with a finite chain,
    the [left] and [top] of [getCoordinates] are what [getLeft] and
    [getTop] return and the [x] and [y] of [getPosition], and its [width]
    and [height] are the [offset] pair of [getSize]. *)
Theorem getCoordinates_agrees
  (h : layout) (this : ref) (l : list ref) (overflown : argument) (fuel : nat) :
  offsetChain h this l -> (length l <= fuel)%nat ->
  exists box position size,
    getCoordinates fuel this overflown h = (Return box, h) /\
    getPosition fuel this overflown h = (Return position, h) /\
    getSize this h = (Return size, h) /\
    getLeft fuel this overflown h = (Return (Coordinates.left box), h) /\
    getTop fuel this overflown h = (Return (Coordinates.top box), h) /\
    Coordinates.left box = Point.x position /\
    Coordinates.top box = Point.y position /\
    Coordinates.width box = Point.x (Size.offset size) /\
    Coordinates.height box = Point.y (Size.offset size).
Proof.
  intros Hchain Hfuel.
  pose proof (getPosition_chain h this l overflown fuel Hchain Hfuel) as Hpos.
  do 3 eexists.
  split; [rewrite getCoordinates_unfold, Hpos; reflexivity|].
  split; [exact Hpos|]. split; [reflexivity|].
  split; [unfold getLeft, bind; rewrite Hpos; reflexivity|].
  split; [unfold getTop, bind; rewrite Hpos; reflexivity|].
  repeat split.
Qed.

Lemma getCoordinates_agrees_scrolled :
  offsetChain scrolled 8%nat [8%nat] /\ (length [8%nat] <= 1)%nat /\
  exists box position size,
    getCoordinates 1 8%nat (Single 7%nat) scrolled = (Return box, scrolled) /\
    getPosition 1 8%nat (Single 7%nat) scrolled = (Return position, scrolled) /\
    getSize 8%nat scrolled = (Return size, scrolled) /\
    getLeft 1 8%nat (Single 7%nat) scrolled =
      (Return (Coordinates.left box), scrolled) /\
    getTop 1 8%nat (Single 7%nat) scrolled =
      (Return (Coordinates.top box), scrolled) /\
    Coordinates.left box = Point.x position /\
    Coordinates.top box = Point.y position /\
    Coordinates.width box = Point.x (Size.offset size) /\
    Coordinates.height box = Point.y (Size.offset size).
Proof.
  assert (Hchain : offsetChain scrolled 8%nat [8%nat])
    by (apply chain_end; reflexivity).
  split; [exact Hchain|]. split; [apply le_n|].
  exact (getCoordinates_agrees scrolled 8%nat [8%nat] (Single 7%nat) 1
           Hchain (le_n 1)).
Defined.

(** X4. Where the node has no numeric [offsetWidth], [getCoordinates]
    still returns, with a numeric [left], but its [right] is [NaN] and is
    not [==] to [left + width]; the same for [offsetHeight], [top] and
    [bottom]. *)
Theorem getCoordinates_missing_size
  (h : layout) (this : ref) (l : list ref) (overflown : argument) (fuel : nat) :
  offsetChain h this l -> (length l <= fuel)%nat ->
  exists box,
    getCoordinates fuel this overflown h = (Return box, h) /\
    (exists n, Coordinates.left box = Number n) /\
    (exists n, Coordinates.top box = Number n) /\
    ((forall w, offsetWidth (h this) <> Number w) ->
       Coordinates.right box = NaN /\
       js_eq (Coordinates.right box)
             (js_add (Coordinates.left box) (Coordinates.width box)) = false) /\
    ((forall ht, offsetHeight (h this) <> Number ht) ->
       Coordinates.bottom box = NaN /\
       js_eq (Coordinates.bottom box)
             (js_add (Coordinates.top box) (Coordinates.height box)) = false).
Proof.
  intros Hchain Hfuel.
  destruct (getPosition_numbers h this l overflown fuel Hchain Hfuel)
    as (a & b & Hpos).
  rewrite getCoordinates_unfold, Hpos.
  eexists. split; [reflexivity|].
  cbn [Coordinates.right Coordinates.left Coordinates.width Coordinates.bottom
       Coordinates.top Coordinates.height Point.x Point.y].
  split; [eexists; reflexivity|]. split; [eexists; reflexivity|].
  split.
  - intros Hw. destruct (offsetWidth (h this)) as [| |w];
      [split; reflexivity|split; reflexivity|].
    exfalso. apply (Hw w). reflexivity.
  - intros Hht. destruct (offsetHeight (h this)) as [| |ht];
      [split; reflexivity|split; reflexivity|].
    exfalso. apply (Hht ht). reflexivity.
Qed.

Lemma getCoordinates_missing_size_blank :
  offsetChain nested 5%nat [5%nat] /\ (length [5%nat] <= 1)%nat /\
  (forall w, offsetWidth (nested 5%nat) <> Number w) /\
  (forall ht, offsetHeight (nested 5%nat) <> Number ht) /\
  exists box,
    getCoordinates 1 5%nat Absent nested = (Return box, nested) /\
    Coordinates.left box = Number 0 /\
    Coordinates.right box = NaN /\ Coordinates.bottom box = NaN.
Proof.
  assert (Hchain : offsetChain nested 5%nat [5%nat])
    by (apply chain_end; reflexivity).
  assert (Hw : forall w, offsetWidth (nested 5%nat) <> Number w)
    by (intros w; discriminate).
  assert (Hht : forall ht, offsetHeight (nested 5%nat) <> Number ht)
    by (intros ht; discriminate).
  split; [exact Hchain|]. split; [apply le_n|].
  split; [exact Hw|]. split; [exact Hht|].
  destruct (getCoordinates_missing_size nested 5%nat [5%nat] Absent 1
              Hchain (le_n 1)) as (box & Hrun & _ & _ & Hright & Hbottom).
  exists box. split; [exact Hrun|].
  assert (Hbox : Return (A := Coordinates.t) box =
                 (getCoordinates 1 5%nat Absent nested).1)
    by (rewrite Hrun; reflexivity).
  injection Hbox as Hbox.
  split; [rewrite Hbox; reflexivity|].
  split; [exact (proj1 (Hright Hw))|exact (proj1 (Hbottom Hht))].
Defined.

(** ** [scrollTo] and the methods that read *)

(** X5. Scrolling a container moves what [getPosition] reports through
    it: on a node with a finite chain, after [c.scrollTo(x, y)] with
    integers [x] and [y], and where the absolute values of the offsets and
    of [x] (of [y]) add up to at most 2^53, [getPosition([c])] returns the
    sums of the offsets less [(x, y)], whatever [c] was scrolled to before
    and also when [c] is the node itself or one of its ancestors. *)
Theorem getPosition_after_scrollTo
  (h : layout) (this c : ref) (l : list ref) (x y : Z) (fuel : nat) :
  offsetChain h this l -> (length l <= fuel)%nat ->
  magnitude offsetLeft h l + Z.abs x <= limit ->
  magnitude offsetTop h l + Z.abs y <= limit ->
  getPosition fuel this (Array [c]) (scrollTo c (Number x) (Number y) h).2 =
    (Return (Point.mk (Number (total offsetLeft h l - x))
                      (Number (total offsetTop h l - y))),
     (scrollTo c (Number x) (Number y) h).2).
Proof.
  intros Hchain Hfuel Hbl Hbt.
  pose proof (magnitude_nonneg offsetLeft h l).
  pose proof (magnitude_nonneg offsetTop h l).
  destruct (magnitude_offsets_scrollTo c (Number x) (Number y) h l)
    as [Hml Hmt].
  destruct (total_offsets_scrollTo c (Number x) (Number y) h l) as [Htl Htt].
  assert (Hsl : pixels (scrollLeft ((scrollTo c (Number x) (Number y) h).2 c))
                = x).
  { rewrite scrollTo_this. cbn [set_scrollTop set_scrollLeft scrollLeft pixels].
    apply fl_exact. lia. }
  assert (Hst : pixels (scrollTop ((scrollTo c (Number x) (Number y) h).2 c))
                = y).
  { rewrite scrollTo_this. cbn [set_scrollTop set_scrollLeft scrollTop pixels].
    apply fl_exact. lia. }
  rewrite (getPosition_exact _ this l (Array [c]) fuel
             (offsetChain_scrollTo c _ _ h this l Hchain) Hfuel);
    cbn [splat];
    [|rewrite magnitude_cons, magnitude_nil, Hml, Hsl; lia
     |rewrite magnitude_cons, magnitude_nil, Hmt, Hst; lia].
  rewrite !total_cons, !total_nil, Htl, Htt, Hsl, Hst, !Z.add_0_r.
  reflexivity.
Qed.

Lemma getPosition_after_scrollTo_nested :
  offsetChain nested 0%nat [0%nat; 1%nat; 2%nat] /\
  (length [0%nat; 1%nat; 2%nat] <= 3)%nat /\
  magnitude offsetLeft nested [0%nat; 1%nat; 2%nat] + Z.abs 4 <= limit /\
  magnitude offsetTop nested [0%nat; 1%nat; 2%nat] + Z.abs 9 <= limit /\
  (getPosition 3 0%nat (Array [1%nat])
     (scrollTo 1%nat (Number 4) (Number 9) nested).2).1 =
    Return (Point.mk (Number 26) (Number 11)).
Proof.
  assert (Hchain : offsetChain nested 0%nat [0%nat; 1%nat; 2%nat]).
  { eapply chain_step; [reflexivity|].
    eapply chain_step; [reflexivity|].
    apply chain_end. reflexivity. }
  assert (Hbl : magnitude offsetLeft nested [0%nat; 1%nat; 2%nat] + Z.abs 4
                <= limit) by (apply Z.leb_le; reflexivity).
  assert (Hbt : magnitude offsetTop nested [0%nat; 1%nat; 2%nat] + Z.abs 9
                <= limit) by (apply Z.leb_le; reflexivity).
  split; [exact Hchain|]. split; [apply le_n|].
  split; [exact Hbl|]. split; [exact Hbt|].
  exact (f_equal fst
           (getPosition_after_scrollTo nested 0%nat 1%nat
              [0%nat; 1%nat; 2%nat] 4 9 3 Hchain (le_n 3) Hbl Hbt)).
Defined.

(** X6. [scrollTo] moves and resizes nothing: for every element [r] and
    every container list that does not hold the scrolled element,
    [getPosition], [getCoordinates] and [getSize] of [r] have the outcome
    they had before the call, under every bound. *)
Theorem scrollTo_keeps_geometry
  (fuel : nat) (c r : ref) (cs : list ref) (x y : value) (h : layout) :
  c ∉ cs ->
  (getPosition fuel r (Array cs) (scrollTo c x y h).2).1 =
    (getPosition fuel r (Array cs) h).1 /\
  (getCoordinates fuel r (Array cs) (scrollTo c x y h).2).1 =
    (getCoordinates fuel r (Array cs) h).1 /\
  (getSize r (scrollTo c x y h).2).1 = (getSize r h).1.
Proof.
  intros Hnotin.
  assert (Hpos : (getPosition fuel r (Array cs) (scrollTo c x y h).2).1 =
                 (getPosition fuel r (Array cs) h).1).
  { apply getPosition_ext.
    - intros a. rewrite scrollTo_cases.
      destruct (decide (c = a)); repeat split.
    - intros a Ha. rewrite scrollTo_frame; [split; reflexivity|].
      intros ->. apply Hnotin. exact Ha. }
  split; [exact Hpos|]. split.
  - rewrite !getCoordinates_outcome, Hpos, scrollTo_cases.
    destruct (decide (c = r)); reflexivity.
  - unfold getSize, bind, get, ret. cbn [fst]. rewrite scrollTo_cases.
    destruct (decide (c = r)); reflexivity.
Qed.

Lemma scrollTo_keeps_geometry_scrolled :
  (7%nat ∉ [8%nat]) /\
  (getPosition 3 0%nat (Array [8%nat])
     (scrollTo 7%nat (Number 40) (Number 60) scrolled).2).1 =
    Return (Point.mk (Number 30) (Number 20)) /\
  (getSize 8%nat (scrollTo 7%nat (Number 40) (Number 60) scrolled).2).1 =
    (getSize 8%nat scrolled).1.
Proof.
  assert (Hnotin : 7%nat ∉ [8%nat]).
  { intros Hin. apply list_elem_of_singleton in Hin. discriminate Hin. }
  split; [exact Hnotin|].
  destruct (scrollTo_keeps_geometry 3 7%nat 0%nat [8%nat]
              (Number 40) (Number 60) scrolled Hnotin) as (Hpos & _ & _).
  destruct (scrollTo_keeps_geometry 1 7%nat 8%nat [8%nat]
              (Number 40) (Number 60) scrolled Hnotin) as (_ & _ & Hsize).
  split; [rewrite Hpos; reflexivity|exact Hsize].
Defined.

(** X7. [getPosition] reads nothing but the [offsetParent], the
    [offsetLeft || 0] and the [offsetTop || 0] of elements and the
    [scrollLeft || 0] and [scrollTop || 0] of the containers: two stores
    that agree on these give the same outcome under every bound. In
    particular an offset that is absent and an offset that is 0 are not
    told apart. *)
Theorem getPosition_reads
  (fuel : nat) (this : ref) (cs : list ref) (h1 h2 : layout) :
  (forall r, offsetParent (h1 r) = offsetParent (h2 r) /\
             pixels (offsetLeft (h1 r)) = pixels (offsetLeft (h2 r)) /\
             pixels (offsetTop (h1 r)) = pixels (offsetTop (h2 r))) ->
  (forall c, c ∈ cs ->
     pixels (scrollLeft (h1 c)) = pixels (scrollLeft (h2 c)) /\
     pixels (scrollTop (h1 c)) = pixels (scrollTop (h2 c))) ->
  (getPosition fuel this (Array cs) h1).1 =
  (getPosition fuel this (Array cs) h2).1.
Proof. intros Hoff Hscroll. apply getPosition_ext; assumption. Qed.

Lemma getPosition_reads_blank_zero :
  (forall r, offsetParent (nowhere r) = offsetParent (placed 0 0 None) /\
             pixels (offsetLeft (nowhere r)) =
               pixels (offsetLeft (placed 0 0 None)) /\
             pixels (offsetTop (nowhere r)) =
               pixels (offsetTop (placed 0 0 None))) /\
  (forall c, c ∈ [3%nat] ->
     pixels (scrollLeft (nowhere c)) = pixels (scrollLeft (placed 0 0 None)) /\
     pixels (scrollTop (nowhere c)) = pixels (scrollTop (placed 0 0 None))) /\
  (getPosition 2 0%nat (Array [3%nat]) nowhere).1 =
  (getPosition 2 0%nat (Array [3%nat]) (fun _ => placed 0 0 None)).1.
Proof.
  assert (Hoff : forall r,
            offsetParent (nowhere r) = offsetParent (placed 0 0 None) /\
            pixels (offsetLeft (nowhere r)) =
              pixels (offsetLeft (placed 0 0 None)) /\
            pixels (offsetTop (nowhere r)) =
              pixels (offsetTop (placed 0 0 None)))
    by (intros r; repeat split).
  assert (Hscroll : forall c, c ∈ [3%nat] ->
            pixels (scrollLeft (nowhere c)) =
              pixels (scrollLeft (placed 0 0 None)) /\
            pixels (scrollTop (nowhere c)) =
              pixels (scrollTop (placed 0 0 None)))
    by (intros c _; split; reflexivity).
  split; [exact Hoff|]. split; [exact Hscroll|].
  exact (getPosition_reads 2 0%nat [3%nat] nowhere (fun _ => placed 0 0 None)
           Hoff Hscroll).
Defined.

(** X8. The last [scrollTo] on an element wins: after two calls on the
    same element the store is, element by element, the store after the
    second call alone. *)
Theorem scrollTo_overwrites
  (this : ref) (x1 y1 x2 y2 : value) (h : layout) (r : ref) :
  (scrollTo this x2 y2 (scrollTo this x1 y1 h).2).2 r =
  (scrollTo this x2 y2 h).2 r.
Proof.
  rewrite !(scrollTo_cases this x2 y2).
  destruct (decide (this = r)) as [->|Hne].
  - rewrite scrollTo_this. reflexivity.
  - apply scrollTo_frame. assumption.
Qed.

(** X9. Calls of [scrollTo] on two different elements can be made in
    either order: the stores they leave are the same, element by element. *)
Theorem scrollTo_commutes
  (a b : ref) (xa ya xb yb : value) (h : layout) (r : ref) :
  a <> b ->
  (scrollTo a xa ya (scrollTo b xb yb h).2).2 r =
  (scrollTo b xb yb (scrollTo a xa ya h).2).2 r.
Proof.
  intros Hne. rewrite !scrollTo_cases.
  destruct (decide (a = r)) as [->|Ha], (decide (b = r)) as [->|Hb];
    try reflexivity.
  exfalso. apply Hne. reflexivity.
Qed.

Lemma scrollTo_commutes_nested :
  0%nat <> 1%nat /\
  (scrollTo 0%nat (Number 1) (Number 2)
     (scrollTo 1%nat (Number 3) (Number 4) nested).2).2 1%nat =
  (scrollTo 1%nat (Number 3) (Number 4)
     (scrollTo 0%nat (Number 1) (Number 2) nested).2).2 1%nat.
Proof.
  assert (Hne : 0%nat <> 1%nat) by discriminate.
  split; [exact Hne|].
  exact (scrollTo_commutes 0%nat 1%nat (Number 1) (Number 2) (Number 3)
           (Number 4) nested 1%nat Hne).
Defined.

(** X10. [scrollTo] on one element is not seen by [getScroll] on another:
    it returns what it returned before. *)
Theorem getScroll_other_element
  (this other : ref) (x y : value) (h : layout) :
  this <> other ->
  (getScroll other (scrollTo this x y h).2).1 = (getScroll other h).1.
Proof.
  intros Hne. unfold getScroll, bind, get, ret. cbn [fst].
  rewrite scrollTo_frame by assumption. reflexivity.
Qed.

Lemma getScroll_other_element_scrolled :
  8%nat <> 7%nat /\
  (getScroll 7%nat (scrollTo 8%nat (Number 1) (Number 2) scrolled).2).1 =
    Return (Point.mk (Number 5) (Number 5)).
Proof.
  assert (Hne : 8%nat <> 7%nat) by discriminate.
  split; [exact Hne|].
  rewrite (getScroll_other_element 8%nat 7%nat (Number 1) (Number 2)
             scrolled Hne).
  reflexivity.
Defined.

(** X11. The five methods that read change nothing: after [getSize],
    [getScroll], [getTop], [getLeft] and [getCoordinates] the store is the
    store before the call, whatever the outcome, also where the call has
    not left the loop. *)
Theorem readers_change_nothing
  (fuel : nat) (this : ref) (overflown : argument) (h : layout) :
  (getSize this h).2 = h /\ (getScroll this h).2 = h /\
  (getTop fuel this overflown h).2 = h /\
  (getLeft fuel this overflown h).2 = h /\
  (getCoordinates fuel this overflown h).2 = h.
Proof.
  pose proof (getPosition_store fuel this overflown h) as Hst.
  unfold getTop, getLeft, getCoordinates, bind, get, ret.
  destruct (getPosition fuel this overflown h) as [[position|e'|] h'];
    cbn [fst snd] in *; subst h'; repeat split.
Qed.

(** ** The loop of [getPosition] *)

(** X12. A call of [getPosition] that returns has walked a finite
    [offsetParent] chain no longer than the bound, has left the store as it
    was, and returns two numbers, never [NaN] or [undefined], whichever
    attributes are absent. *)
Theorem getPosition_returns_numbers
  (fuel : nat) (this : ref) (overflown : argument) (h h' : layout)
  (p : Point.t) :
  getPosition fuel this overflown h = (Return p, h') ->
  h' = h /\
  (exists a b : Z, p = Point.mk (Number a) (Number b)) /\
  (exists l, offsetChain h this l /\ (length l <= fuel)%nat).
Proof.
  intros Hrun.
  destruct (getPosition_returns _ _ _ _ _ _ Hrun) as (l & Hl & Hlen).
  destruct (getPosition_numbers h this l overflown fuel Hl Hlen)
    as (a & b & Hnum).
  rewrite Hnum in Hrun. injection Hrun as <- <-.
  split; [reflexivity|]. split; [exists a, b; reflexivity|].
  exists l. split; assumption.
Qed.

Lemma getPosition_returns_numbers_blank :
  getPosition 1 5%nat (Single 6%nat) nested =
    (Return (Point.mk (Number 0) (Number 0)), nested) /\
  (exists a b : Z, Point.mk (Number 0) (Number 0) = Point.mk (Number a) (Number b)) /\
  (exists l, offsetChain nested 5%nat l /\ (length l <= 1)%nat).
Proof.
  assert (Hrun : getPosition 1 5%nat (Single 6%nat) nested =
                 (Return (Point.mk (Number 0) (Number 0)), nested))
    by reflexivity.
  split; [exact Hrun|].
  exact (proj2 (getPosition_returns_numbers 1 5%nat (Single 6%nat) nested
                  nested _ Hrun)).
Defined.

(** X14. On a node whose [offsetParent] chain has no end (because it runs
    into a cycle, say) the loop never leaves: under every bound
    [getPosition], [getTop], [getLeft] and [getCoordinates] are still
    running, and the store is untouched. *)
Theorem getPosition_endless
  (h : layout) (this : ref) (overflown : argument) (fuel : nat) :
  (forall l, ~ offsetChain h this l) ->
  getPosition fuel this overflown h = (OutOfFuel, h) /\
  getTop fuel this overflown h = (OutOfFuel, h) /\
  getLeft fuel this overflown h = (OutOfFuel, h) /\
  getCoordinates fuel this overflown h = (OutOfFuel, h).
Proof.
  intros Hno.
  assert (Hpos : getPosition fuel this overflown h = (OutOfFuel, h)).
  { rewrite getPosition_unfold, (offsetWalk_endless h fuel this _ Hno).
    reflexivity. }
  unfold getTop, getLeft, getCoordinates, bind. rewrite Hpos.
  repeat split.
Qed.

Lemma getPosition_endless_knot :
  (forall l, ~ offsetChain knot 0%nat l) /\
  getPosition 1000 0%nat Absent knot = (OutOfFuel, knot) /\
  getTop 1000 0%nat Absent knot = (OutOfFuel, knot) /\
  getLeft 1000 0%nat Absent knot = (OutOfFuel, knot) /\
  getCoordinates 1000 0%nat Absent knot = (OutOfFuel, knot).
Proof.
  assert (Hno : forall l, ~ offsetChain knot 0%nat l)
    by (intros l; apply knot_no_chain).
  split; [exact Hno|].
  exact (getPosition_endless knot 0%nat Absent 1000 Hno).
Defined.

(** X15. Offsets accumulate along the chain: where the offsets and scroll
    offsets are integers whose absolute values add up to at most 2^53 on
    each axis, the position of an element is the position of its
    [offsetParent] moved by the element's own [offsetLeft || 0] and
    [offsetTop || 0], for the same containers. *)
Theorem getPosition_child
  (h : layout) (el parent : ref) (l cs : list ref) (fuel : nat) :
  offsetParent (h el) = Some parent ->
  offsetChain h parent l -> (length l <= fuel)%nat ->
  magnitude offsetLeft h (el :: l) + magnitude scrollLeft h cs <= limit ->
  magnitude offsetTop h (el :: l) + magnitude scrollTop h cs <= limit ->
  exists px py : Z,
    getPosition fuel parent (Array cs) h =
      (Return (Point.mk (Number px) (Number py)), h) /\
    getPosition (S fuel) el (Array cs) h =
      (Return (Point.mk (Number (pixels (offsetLeft (h el)) + px))
                        (Number (pixels (offsetTop (h el)) + py))), h).
Proof.
  intros Hpar Hchain Hfuel Hbl Hbt.
  exists (total offsetLeft h l - total scrollLeft h cs),
         (total offsetTop h l - total scrollTop h cs).
  pose proof Hbl as Hbl'. pose proof Hbt as Hbt'.
  rewrite magnitude_cons in Hbl', Hbt'.
  split; [apply getPosition_exact; cbn [splat]; [assumption|assumption|lia|lia]|].
  rewrite (getPosition_exact h el (el :: l) (Array cs) (S fuel));
    [|eapply chain_step; eassumption|cbn; lia|exact Hbl|exact Hbt].
  cbn [splat]. rewrite !total_cons, !Z.add_sub_assoc. reflexivity.
Qed.

Lemma getPosition_child_nested :
  offsetParent (nested 0%nat) = Some 1%nat /\
  offsetChain nested 1%nat [1%nat; 2%nat] /\
  (length [1%nat; 2%nat] <= 2)%nat /\
  magnitude offsetLeft nested (0%nat :: [1%nat; 2%nat])
    + magnitude scrollLeft nested [] <= limit /\
  magnitude offsetTop nested (0%nat :: [1%nat; 2%nat])
    + magnitude scrollTop nested [] <= limit /\
  getPosition 2 1%nat (Array []) nested =
    (Return (Point.mk (Number 20) (Number 15)), nested) /\
  getPosition 3 0%nat (Array []) nested =
    (Return (Point.mk (Number 30) (Number 20)), nested).
Proof.
  assert (Hchain : offsetChain nested 1%nat [1%nat; 2%nat]).
  { eapply chain_step; [reflexivity|]. apply chain_end. reflexivity. }
  assert (Hbl : magnitude offsetLeft nested (0%nat :: [1%nat; 2%nat])
                + magnitude scrollLeft nested [] <= limit)
    by (apply Z.leb_le; reflexivity).
  assert (Hbt : magnitude offsetTop nested (0%nat :: [1%nat; 2%nat])
                + magnitude scrollTop nested [] <= limit)
    by (apply Z.leb_le; reflexivity).
  split; [reflexivity|]. split; [exact Hchain|]. split; [apply le_n|].
  split; [exact Hbl|]. split; [exact Hbt|].
  destruct (getPosition_child nested 0%nat 1%nat [1%nat; 2%nat] [] 2
              eq_refl Hchain (le_n 2) Hbl Hbt)
    as (px & py & Hparent & Hchild).
  assert (Hval : (getPosition 2 1%nat (Array []) nested).1 =
                 Return (Point.mk (Number 20) (Number 15))) by reflexivity.
  rewrite Hparent in Hval. cbn [fst] in Hval. injection Hval as -> ->.
  split; [exact Hparent|exact Hchild].
Defined.

(** ** The containers *)

(** X16. A container counts wherever it stands in the list: where the
    offsets and scroll offsets are integers whose absolute values add up
    to at most 2^53 on each axis, putting [c] anywhere into the container
    list moves the position by what [c.getScroll()] returns, with [|| 0]
    applied to each coordinate. *)
Theorem getPosition_container_anywhere
  (h : layout) (this c : ref) (l cs1 cs2 : list ref) (fuel : nat)
  (s : Point.t) :
  offsetChain h this l -> (length l <= fuel)%nat ->
  getScroll c h = (Return s, h) ->
  magnitude offsetLeft h l + magnitude scrollLeft h (cs1 ++ c :: cs2)
    <= limit ->
  magnitude offsetTop h l + magnitude scrollTop h (cs1 ++ c :: cs2)
    <= limit ->
  exists px py : Z,
    getPosition fuel this (Array (cs1 ++ cs2)) h =
      (Return (Point.mk (Number px) (Number py)), h) /\
    getPosition fuel this (Array (cs1 ++ c :: cs2)) h =
      (Return (Point.mk (Number (px - pixels (Point.x s)))
                        (Number (py - pixels (Point.y s)))), h).
Proof.
  intros Hchain Hfuel Hscroll Hbl Hbt.
  unfold getScroll, bind, get, ret in Hscroll. injection Hscroll as <-.
  exists (total offsetLeft h l - total scrollLeft h (cs1 ++ cs2)),
         (total offsetTop h l - total scrollTop h (cs1 ++ cs2)).
  pose proof Hbl as Hbl'. pose proof Hbt as Hbt'.
  rewrite magnitude_app, magnitude_cons in Hbl', Hbt'.
  split.
  - apply getPosition_exact; cbn [splat];
      [assumption|assumption|rewrite magnitude_app; lia
      |rewrite magnitude_app; lia].
  - rewrite (getPosition_exact h this l (Array (cs1 ++ c :: cs2)) fuel
               Hchain Hfuel Hbl Hbt).
    cbn [splat Point.x Point.y]. rewrite !total_app, !total_cons.
    assert (Hmove : forall a t1 t2 q : Z,
              a - (t1 + (q + t2)) = a - (t1 + t2) - q) by (intros; lia).
    rewrite !Hmove. reflexivity.
Qed.

Lemma getPosition_container_anywhere_scrolled :
  offsetChain scrolled 0%nat [0%nat; 1%nat; 2%nat] /\
  (length [0%nat; 1%nat; 2%nat] <= 3)%nat /\
  getScroll 7%nat scrolled = (Return (Point.mk (Number 5) (Number 5)), scrolled) /\
  magnitude offsetLeft scrolled [0%nat; 1%nat; 2%nat]
    + magnitude scrollLeft scrolled ([8%nat] ++ 7%nat :: [1%nat]) <= limit /\
  magnitude offsetTop scrolled [0%nat; 1%nat; 2%nat]
    + magnitude scrollTop scrolled ([8%nat] ++ 7%nat :: [1%nat]) <= limit /\
  getPosition 3 0%nat (Array ([8%nat] ++ [1%nat])) scrolled =
    (Return (Point.mk (Number 30) (Number 20)), scrolled) /\
  getPosition 3 0%nat (Array ([8%nat] ++ 7%nat :: [1%nat])) scrolled =
    (Return (Point.mk (Number 25) (Number 15)), scrolled).
Proof.
  assert (Hchain : offsetChain scrolled 0%nat [0%nat; 1%nat; 2%nat]).
  { eapply chain_step; [reflexivity|].
    eapply chain_step; [reflexivity|].
    apply chain_end. reflexivity. }
  assert (Hscroll : getScroll 7%nat scrolled =
                    (Return (Point.mk (Number 5) (Number 5)), scrolled))
    by reflexivity.
  assert (Hbl : magnitude offsetLeft scrolled [0%nat; 1%nat; 2%nat]
                + magnitude scrollLeft scrolled ([8%nat] ++ 7%nat :: [1%nat])
                <= limit) by (apply Z.leb_le; reflexivity).
  assert (Hbt : magnitude offsetTop scrolled [0%nat; 1%nat; 2%nat]
                + magnitude scrollTop scrolled ([8%nat] ++ 7%nat :: [1%nat])
                <= limit) by (apply Z.leb_le; reflexivity).
  split; [exact Hchain|]. split; [apply le_n|]. split; [exact Hscroll|].
  split; [exact Hbl|]. split; [exact Hbt|].
  destruct (getPosition_container_anywhere scrolled 0%nat 7%nat
              [0%nat; 1%nat; 2%nat] [8%nat] [1%nat] 3 _
              Hchain (le_n 3) Hscroll Hbl Hbt)
    as (px & py & Hwithout & Hwith).
  assert (Hval : (getPosition 3 0%nat (Array ([8%nat] ++ [1%nat])) scrolled).1 =
                 Return (Point.mk (Number 30) (Number 20))) by reflexivity.
  pose proof (eq_trans (eq_sym (f_equal fst Hwithout)) Hval) as Heq.
  cbn [fst] in Heq. injection Heq as -> ->.
  split; [exact Hwithout|exact Hwith].
Defined.

(** X17. Containers that are not scrolled do not count: where every
    container has an absent or zero [scrollLeft] and [scrollTop], the
    position is the one returned for the empty list. *)
Theorem getPosition_unscrolled_containers
  (h : layout) (this : ref) (l cs : list ref) (fuel : nat) :
  offsetChain h this l -> (length l <= fuel)%nat ->
  (forall c, c ∈ cs ->
     truthy (scrollLeft (h c)) = false /\ truthy (scrollTop (h c)) = false) ->
  getPosition fuel this (Array cs) h = getPosition fuel this (Array []) h /\
  exists p, getPosition fuel this (Array cs) h = (Return p, h).
Proof.
  intros Hchain Hfuel Hfalsy.
  rewrite !(getPosition_chain h this l _ fuel Hchain Hfuel). cbn [splat].
  destruct (walked_doubles h l (Number 0, Number 0)
              is_double_zero is_double_zero) as [Hw1 Hw2].
  rewrite (subtracted_falsy h cs _ Hw1 Hw2 Hfalsy).
  split; [reflexivity|eexists; reflexivity].
Qed.

Lemma getPosition_unscrolled_containers_nested :
  offsetChain nested 0%nat [0%nat; 1%nat; 2%nat] /\
  (length [0%nat; 1%nat; 2%nat] <= 3)%nat /\
  (forall c, c ∈ [1%nat; 5%nat] ->
     truthy (scrollLeft (nested c)) = false /\
     truthy (scrollTop (nested c)) = false) /\
  getPosition 3 0%nat (Array [1%nat; 5%nat]) nested =
    getPosition 3 0%nat (Array []) nested.
Proof.
  assert (Hchain : offsetChain nested 0%nat [0%nat; 1%nat; 2%nat]).
  { eapply chain_step; [reflexivity|].
    eapply chain_step; [reflexivity|].
    apply chain_end. reflexivity. }
  assert (Hfalsy : forall c, c ∈ [1%nat; 5%nat] ->
            truthy (scrollLeft (nested c)) = false /\
            truthy (scrollTop (nested c)) = false).
  { intros c Hc. apply elem_of_cons in Hc as [->|Hc]; [split; reflexivity|].
    apply list_elem_of_singleton in Hc as ->. split; reflexivity. }
  split; [exact Hchain|]. split; [apply le_n|]. split; [exact Hfalsy|].
  exact (proj1 (getPosition_unscrolled_containers nested 0%nat
                  [0%nat; 1%nat; 2%nat] [1%nat; 5%nat] 3
                  Hchain (le_n 3) Hfalsy)).
Defined.
